(** * Ensemble/fingerprints.py: the four fingerprint encoders

    A shallow embedding of [get_ecfp], [get_ecfc], [get_maccs] and
    [get_secfp].  The chemistry toolkit (RDKit, mhfp) is an interface,
    [ChemEngine]; what the toolkit promises about vector lengths is stated
    as separate contracts, so that each theorem names the promises it
    relies on.  pandas is modelled by the two operations the encoders use:
    the [DataFrame] constructor over a list of rows, with its padding of
    short rows and its choice of a column's dtype, and [dropna(how='any')]. *)

From Stdlib Require Import ZArith NArith String Ascii Bool Lia PeanoNat List.
Import ListNotations.
Open Scope string_scope.
Open Scope list_scope.
Open Scope Z_scope.

(** ** Python values, stdout and exceptions *)

(** One cell of a row or of a table: a missing value ([None], or NaN in a
    float column), a Python integer, the float [float(z)] of an integer, or a
    Python string. *)
Inductive cell : Type :=
| PyNone
| PyInt (z : Z)
| PyFloat (z : Z)
| PyStr (s : string).

Definition is_null (c : cell) : bool :=
  match c with
  | PyNone => true
  | _ => false
  end.

Inductive exn : Type :=
| ValueError.

Inductive outcome (A : Type) : Type :=
| Return (a : A)
| Raise (e : exn).
Arguments Return {A} a.
Arguments Raise {A} e.

(** A Python computation threads the lines printed so far and either
    returns or raises. *)
Definition Py (A : Type) : Type := list string -> outcome A * list string.

Definition ret {A} (a : A) : Py A := fun out => (Return a, out).

Definition raise {A} (e : exn) : Py A := fun out => (Raise e, out).

Definition bind {A B} (c : Py A) (k : A -> Py B) : Py B :=
  fun out =>
    match c out with
    | (Return a, out') => k a out'
    | (Raise e, out') => (Raise e, out')
    end.

Definition print (s : string) : Py unit := fun out => (Return tt, out ++ [s]).

Notation "x <- c1 ;; c2" := (bind c1 (fun x => c2))
  (at level 61, c1 at next level, right associativity).
Notation "c1 ;;; c2" := (bind c1 (fun _ => c2))
  (at level 61, right associativity).

(** ** Strings *)

Definition newline : string := String (ascii_of_nat 10) EmptyString.

(** [sep.join(xs)] *)
Fixpoint join (sep : string) (xs : list string) : string :=
  match xs with
  | [] => ""
  | [x] => x
  | x :: rest => (x ++ sep ++ join sep rest)%string
  end.

(** [list(s)] for a Python string: its one-character strings. *)
Fixpoint list_of_str (s : string) : list cell :=
  match s with
  | EmptyString => []
  | String c rest => PyStr (String c EmptyString) :: list_of_str rest
  end.

(** The text the encoders print:
    ["The following erroneous SMILES have been found in the data:\n{}.\nThe
    erroneous SMILES will be removed from the data."] formatted with
    ['\n'.join(map(str, erroneous_smiles))]. *)
Definition diagnostic (erroneous_smiles : list string) : string :=
  ("The following erroneous SMILES have been found in the data:" ++ newline
   ++ join newline erroneous_smiles
   ++ "." ++ newline
   ++ "The erroneous SMILES will be removed from the data.")%string.


(** ** pandas *)

(** A table: the number of columns and the rows in order, each under its
    index label.  Labels may repeat. *)
Record DataFrame : Type := mkDataFrame {
  columns : nat;
  rows : list (string * list cell)
}.

Definition max_width (data : list (list cell)) : nat :=
  fold_right (fun r k => Nat.max (length r) k) 0%nat data.

(** A row shorter than the table is filled with missing values. *)
Definition pad (k : nat) (r : list cell) : list cell :=
  r ++ repeat PyNone (k - length r).

Definition is_number (c : cell) : bool :=
  match c with
  | PyInt _ | PyFloat _ => true
  | _ => false
  end.

Definition is_float (c : cell) : bool :=
  match c with
  | PyFloat _ => true
  | _ => false
  end.

(** An integer stored in a float column. *)
Definition as_float (c : cell) : cell :=
  match c with
  | PyInt z => PyFloat z
  | _ => c
  end.

(** The cells of column [j] of a list of rows. *)
Definition column (j : nat) (data : list (list cell)) : list cell :=
  map (fun r => nth j r PyNone) data.

(** pandas gives a column the dtype float64 when it holds numbers only,
    apart from missing values, and a missing value or a float among them; a
    column of integers alone stays integer, and a column with a string is
    left as objects. *)
Definition float_column (col : list cell) : bool :=
  existsb (fun c => is_null c || is_float c) col
  && forallb (fun c => is_null c || is_number c) col.

(** The cells of a row, from column [j] on, as the table stores them. *)
Fixpoint infer_from (j : nat) (data : list (list cell)) (r : list cell) : list cell :=
  match r with
  | [] => []
  | c :: rest =>
      (if float_column (column j data) then as_float c else c)
        :: infer_from (S j) data rest
  end.

Definition infer_row (data : list (list cell)) (r : list cell) : list cell :=
  infer_from 0 data r.

(** The rows of a table after the choice of the columns' dtypes. *)
Definition infer_dtypes (data : list (list cell)) : list (list cell) :=
  map (infer_row data) data.

(** The table pandas builds from a non-empty list of rows and an index of
    the same length. *)
Definition frame_of (data : list (list cell)) (index : list string) : DataFrame :=
  let k := max_width data in
  {| columns := k; rows := combine index (infer_dtypes (map (pad k) data)) |}.

(** [pd.DataFrame(data = data, index = index)] for a list of rows.  An empty
    [data] gives a table of no columns over the index; otherwise the number
    of rows must be the length of the index. *)
Definition pd_DataFrame (data : list (list cell)) (index : list string) : Py DataFrame :=
  match data with
  | [] => ret {| columns := 0; rows := map (fun k => (k, [])) index |}
  | _ :: _ =>
      if Nat.eqb (length data) (length index)
      then ret (frame_of data index)
      else raise ValueError
  end.

Definition row_has_null (r : string * list cell) : bool :=
  existsb is_null (snd r).

(** [df.dropna(how='any')]: the rows without a missing value. *)
Definition dropna_any (df : DataFrame) : DataFrame :=
  {| columns := columns df;
     rows := filter (fun r => negb (row_has_null r)) (rows df) |}.

(** ** The chemistry toolkit *)

(** What the encoders call: RDKit's parser, hydrogen addition and three
    descriptors, and the MinHash encoder of mhfp.  A sparse count vector and
    a numpy array of unsigned integers are given by their entries in order
    (what [list(...)] walks through), a bit vector by its bits.  The
    functions stand for the toolkit on the arguments it accepts; mhfp's
    constructor accepts a number of permutations that is not negative
    ([constructor_accepts] below). *)
Record ChemEngine : Type := mkChemEngine {
  Mol : Type;
  MolFromSmiles : string -> option Mol;
  AddHs : Mol -> Mol;
  GetHashedMorganFingerprint : Mol -> Z -> Z -> list N;
  GetMorganFingerprintAsBitVect : Mol -> Z -> Z -> list bool;
  GetMACCSKeysFingerprint : Mol -> list bool;
  MHFPEncoder : Type;
  new_MHFPEncoder : Z -> MHFPEncoder;
  secfp_from_mol : MHFPEncoder -> Mol -> Z -> Z -> list N
}.

(** [bv.ToBitString()] *)
Fixpoint ToBitString (bv : list bool) : string :=
  match bv with
  | [] => ""
  | b :: rest => String (if b then "1"%char else "0"%char) (ToBitString rest)
  end.

(** [list(v)] for a vector of unsigned integers. *)
Definition list_of_uints (v : list N) : list cell :=
  map (fun c => PyInt (Z.of_N c)) v.

(** [list(bv)] for a bit vector: the integers 0 and 1. *)
Definition list_of_bits (bv : list bool) : list cell :=
  map (fun b : bool => PyInt (if b then 1 else 0)) bv.

(** [[None]*n] *)
Definition none_times (n : Z) : list cell := repeat PyNone (Z.to_nat n).

Section Encoders.

Variable E : ChemEngine.

(** The two accumulators of each loop. *)
Definition acc : Type := (list (list cell) * list string)%type.

(** *** get_ecfp *)

Definition ecfp_step (radius nBits : Z) (useCounts : bool)
           (st : acc) (smiles : string) : acc :=
  let '(ecfp_fingerprints, erroneous_smiles) := st in
  match MolFromSmiles E smiles with
  | None =>
      (ecfp_fingerprints ++ [none_times nBits], erroneous_smiles ++ [smiles])
  | Some mol =>
      let mol := AddHs E mol in
      if useCounts
      then (ecfp_fingerprints
              ++ [list_of_uints (GetHashedMorganFingerprint E mol radius nBits)],
            erroneous_smiles)
      else (ecfp_fingerprints
              ++ [list_of_str
                    (ToBitString (GetMorganFingerprintAsBitVect E mol radius nBits))],
            erroneous_smiles)
  end.

Definition ecfp_loop (smiles_list : list string) (radius nBits : Z)
           (useCounts : bool) : acc :=
  fold_left (ecfp_step radius nBits useCounts) smiles_list ([], []).

Definition get_ecfp (smiles_list : list string) (radius nBits : Z)
           (useCounts : bool) : Py DataFrame :=
  let '(ecfp_fingerprints, erroneous_smiles) :=
    ecfp_loop smiles_list radius nBits useCounts in
  df_ecfp_fingerprints <- pd_DataFrame ecfp_fingerprints smiles_list ;;
  if (0 <? length erroneous_smiles)%nat
  then print (diagnostic erroneous_smiles) ;;;
       ret (dropna_any df_ecfp_fingerprints)
  else ret df_ecfp_fingerprints.

(** *** get_ecfc *)

Definition ecfc_step (radius nBits : Z) (useCounts : bool)
           (st : acc) (smiles : string) : acc :=
  let '(ecfp_fingerprints, erroneous_smiles) := st in
  match MolFromSmiles E smiles with
  | None =>
      (ecfp_fingerprints ++ [none_times nBits], erroneous_smiles ++ [smiles])
  | Some mol =>
      let mol := AddHs E mol in
      if useCounts
      then (ecfp_fingerprints
              ++ [list_of_uints (GetHashedMorganFingerprint E mol radius nBits)],
            erroneous_smiles)
      else (ecfp_fingerprints
              ++ [list_of_str
                    (ToBitString (GetMorganFingerprintAsBitVect E mol radius nBits))],
            erroneous_smiles)
  end.

Definition ecfc_loop (smiles_list : list string) (radius nBits : Z)
           (useCounts : bool) : acc :=
  fold_left (ecfc_step radius nBits useCounts) smiles_list ([], []).

Definition get_ecfc (smiles_list : list string) (radius nBits : Z)
           (useCounts : bool) : Py DataFrame :=
  let '(ecfp_fingerprints, erroneous_smiles) :=
    ecfc_loop smiles_list radius nBits useCounts in
  df_ecfp_fingerprints <- pd_DataFrame ecfp_fingerprints smiles_list ;;
  if (0 <? length erroneous_smiles)%nat
  then print (diagnostic erroneous_smiles) ;;;
       ret (dropna_any df_ecfp_fingerprints)
  else ret df_ecfp_fingerprints.

(** *** get_maccs *)

Definition maccs_step (st : acc) (smiles : string) : acc :=
  let '(list_maccs_fingerprint, erroneous_smiles) := st in
  match MolFromSmiles E smiles with
  | None =>
      (list_maccs_fingerprint ++ [none_times 167], erroneous_smiles ++ [smiles])
  | Some mol =>
      let mol := AddHs E mol in
      (list_maccs_fingerprint ++ [list_of_bits (GetMACCSKeysFingerprint E mol)],
       erroneous_smiles)
  end.

Definition maccs_loop (smiles_list : list string) : acc :=
  fold_left maccs_step smiles_list ([], []).

Definition get_maccs (smiles_list : list string) : Py DataFrame :=
  let '(list_maccs_fingerprint, erroneous_smiles) := maccs_loop smiles_list in
  df_maccs_fingerprints <- pd_DataFrame list_maccs_fingerprint smiles_list ;;
  if (0 <? length erroneous_smiles)%nat
  then print (diagnostic erroneous_smiles) ;;;
       ret (dropna_any df_maccs_fingerprints)
  else ret df_maccs_fingerprints.

(** *** get_secfp *)

Definition secfp_step (mhfp_encoder : MHFPEncoder E) (radius nBits : Z)
           (st : acc) (smiles : string) : acc :=
  let '(list_secfp_fingerprint, erroneous_smiles) := st in
  match MolFromSmiles E smiles with
  | None =>
      (list_secfp_fingerprint ++ [none_times nBits], erroneous_smiles ++ [smiles])
  | Some mol =>
      let mol := AddHs E mol in
      (list_secfp_fingerprint
         ++ [list_of_uints (secfp_from_mol E mhfp_encoder mol 2048 radius)],
       erroneous_smiles)
  end.

Definition secfp_loop (smiles_list : list string) (radius nBits : Z) : acc :=
  let mhfp_encoder := new_MHFPEncoder E nBits in
  fold_left (secfp_step mhfp_encoder radius nBits) smiles_list ([], []).

Definition get_secfp (smiles_list : list string) (radius nBits : Z) : Py DataFrame :=
  let '(list_secfp_fingerprint, erroneous_smiles) :=
    secfp_loop smiles_list radius nBits in
  df_secfp_fingerprints <- pd_DataFrame list_secfp_fingerprint smiles_list ;;
  if (0 <? length erroneous_smiles)%nat
  then print (diagnostic erroneous_smiles) ;;;
       ret (dropna_any df_secfp_fingerprints)
  else ret df_secfp_fingerprints.

End Encoders.

(** ** Default arguments *)

(** A call that may leave [radius], [nBits] and [useCounts] out. *)
Definition default {A} (d : A) (o : option A) : A :=
  match o with
  | Some a => a
  | None => d
  end.

Definition call_get_ecfp (E : ChemEngine) (smiles_list : list string)
           (radius nBits : option Z) (useCounts : option bool) : Py DataFrame :=
  get_ecfp E smiles_list (default 2 radius) (default 2048 nBits)
           (default false useCounts).

Definition call_get_ecfc (E : ChemEngine) (smiles_list : list string)
           (radius nBits : option Z) (useCounts : option bool) : Py DataFrame :=
  get_ecfc E smiles_list (default 2 radius) (default 2048 nBits)
           (default true useCounts).

Definition call_get_secfp (E : ChemEngine) (smiles_list : list string)
           (radius nBits : option Z) : Py DataFrame :=
  get_secfp E smiles_list (default 3 radius) (default 2048 nBits).

(** ** The script at the end of the module *)

Definition test_smiles_list : list string :=
  ["CCCC"; "CO"; "ON(c1ccccc1)C(=O)c2ccc(Cl)cc2Cl";
   "CN1C=NC2=C1C(=O)N(C(=O)N2C)C"; "XXXX"].

(** The four tables the script binds. *)
Record simple_results : Type := mkSimpleResults {
  simple_ecfp_result : DataFrame;
  simple_ecfp_count_result : DataFrame;
  simple_maccs_result : DataFrame;
  simple_secfp_result : DataFrame
}.

(** The simple test: the four calls in the order of the script, before the
    CSV file is read. *)
Definition simple_test (E : ChemEngine) : Py simple_results :=
  ecfp_result <- call_get_ecfp E test_smiles_list None None None ;;
  ecfp_count_result <- call_get_ecfp E test_smiles_list None None (Some true) ;;
  maccs_result <- get_maccs E test_smiles_list ;;
  secfp_result <- call_get_secfp E test_smiles_list None None ;;
  ret {| simple_ecfp_result := ecfp_result;
         simple_ecfp_count_result := ecfp_count_result;
         simple_maccs_result := maccs_result;
         simple_secfp_result := secfp_result |}.

(** ** The four encoders as one family *)

(** An invocation of one of the encoders, with its parameters. *)
Inductive call : Type :=
| Ecfp (radius nBits : Z) (useCounts : bool)
| Ecfc (radius nBits : Z) (useCounts : bool)
| Maccs
| Secfp (radius nBits : Z).

Definition invoke (E : ChemEngine) (c : call) (smiles_list : list string) : Py DataFrame :=
  match c with
  | Ecfp radius nBits useCounts => get_ecfp E smiles_list radius nBits useCounts
  | Ecfc radius nBits useCounts => get_ecfc E smiles_list radius nBits useCounts
  | Maccs => get_maccs E smiles_list
  | Secfp radius nBits => get_secfp E smiles_list radius nBits
  end.

(** The accumulators at the end of the loop of an invocation. *)
Definition loop_of (E : ChemEngine) (c : call) (smiles_list : list string) : acc :=
  match c with
  | Ecfp radius nBits useCounts => ecfp_loop E smiles_list radius nBits useCounts
  | Ecfc radius nBits useCounts => ecfc_loop E smiles_list radius nBits useCounts
  | Maccs => maccs_loop E smiles_list
  | Secfp radius nBits => secfp_loop E smiles_list radius nBits
  end.

(** The length of the placeholder row of an invocation. *)
Definition width_of (c : call) : Z :=
  match c with
  | Ecfp _ nBits _ => nBits
  | Ecfc _ nBits _ => nBits
  | Maccs => 167
  | Secfp _ nBits => nBits
  end.

(** The row an invocation appends for a molecule with explicit hydrogens. *)
Definition descriptor (E : ChemEngine) (c : call) (mol : Mol E) : list cell :=
  match c with
  | Ecfp radius nBits useCounts | Ecfc radius nBits useCounts =>
      if useCounts
      then list_of_uints (GetHashedMorganFingerprint E mol radius nBits)
      else list_of_str (ToBitString (GetMorganFingerprintAsBitVect E mol radius nBits))
  | Maccs => list_of_bits (GetMACCSKeysFingerprint E mol)
  | Secfp radius nBits =>
      list_of_uints (secfp_from_mol E (new_MHFPEncoder E nBits) mol 2048 radius)
  end.

Definition parses (E : ChemEngine) (smiles : string) : bool :=
  match MolFromSmiles E smiles with
  | Some _ => true
  | None => false
  end.

(** The strings of a list that fail to parse, in order. *)
Definition erroneous (E : ChemEngine) (smiles_list : list string) : list string :=
  filter (fun s => negb (parses E s)) smiles_list.

(** The row appended for one input string. *)
Definition row_of (E : ChemEngine) (c : call) (smiles : string) : list cell :=
  match MolFromSmiles E smiles with
  | None => none_times (width_of c)
  | Some mol => descriptor E c (AddHs E mol)
  end.

(** The table an invocation has after [pd.DataFrame] and before any
    filtering. *)
Definition assembled (E : ChemEngine) (c : call) (smiles_list : list string) : DataFrame :=
  frame_of (map (row_of E c) smiles_list) smiles_list.

(** ** What the toolkit promises *)

(** The documented lengths of the toolkit's vectors: a Morgan fingerprint
    folded to [nBits] has [nBits] entries, MACCS keys have 167, and the
    folded MinHash fingerprint has [length] entries, whatever the number of
    permutations of the encoder. *)
Record ToolkitContract (E : ChemEngine) : Prop := mkToolkitContract {
  hashed_morgan_length :
    forall mol radius nBits, 0 < nBits ->
      length (GetHashedMorganFingerprint E mol radius nBits) = Z.to_nat nBits;
  morgan_bitvect_length :
    forall mol radius nBits, 0 < nBits ->
      length (GetMorganFingerprintAsBitVect E mol radius nBits) = Z.to_nat nBits;
  maccs_keys_length :
    forall mol, length (GetMACCSKeysFingerprint E mol) = 167%nat;
  secfp_length :
    forall enc mol len radius, 0 < len ->
      length (secfp_from_mol E enc mol len radius) = Z.to_nat len
}.

(** For fixed parameters every vector of the toolkit has one length. *)
Definition fixed_length (E : ChemEngine) (c : call) : Prop :=
  exists k, forall mol, length (descriptor E c mol) = k.

(** The length the contract gives the descriptor row: the width of an ECFP
    or ECFC call, 167 for MACCS, and the [length=2048] of the call to
    [secfp_from_mol] for SECFP. *)
Definition descriptor_width (c : call) : nat :=
  match c with
  | Ecfp _ nBits _ | Ecfc _ nBits _ => Z.to_nat nBits
  | Maccs => 167
  | Secfp _ _ => 2048
  end.

(** The contract speaks of Morgan fingerprints of positive width only. *)
Definition positive_morgan_width (c : call) : Prop :=
  match c with
  | Ecfp _ nBits _ | Ecfc _ nBits _ => 0 < nBits
  | Maccs | Secfp _ _ => True
  end.

(** The vectors of the toolkit have one length, and the placeholder is not
    longer. *)
Definition placeholder_fits (E : ChemEngine) (c : call) : Prop :=
  exists k, (forall mol, length (descriptor E c mol) = k)
            /\ (Z.to_nat (width_of c) <= k)%nat.

(** The placeholder of a SECFP call is not longer than the 2048 entries of
    its fingerprints. *)
Definition within_secfp_length (c : call) : Prop :=
  match c with
  | Secfp _ nBits => nBits <= 2048
  | _ => True
  end.

(** The entry of a bit-mode row: the character of a bit. *)
Definition bit_character (x : cell) : Prop := x = PyStr "0" \/ x = PyStr "1".

(** A number that is not negative, stored as a float or as an integer. *)
Definition number_cell (floats : bool) (x : cell) : Prop :=
  exists n : Z, 0 <= n /\ x = if floats then PyFloat n else PyInt n.

(** The rows of the table of an invocation before the dtypes are chosen. *)
Definition padded_rows (E : ChemEngine) (c : call) (smiles_list : list string)
  : list (list cell) :=
  map (pad (max_width (map (row_of E c) smiles_list)))
      (map (row_of E c) smiles_list).

(** Some string of the list fails to parse. *)
Definition has_failure (E : ChemEngine) (smiles_list : list string) : bool :=
  existsb (fun s => negb (parses E s)) smiles_list.

(** A vector as the returned table holds it: its integers are floats when
    the input had a string that failed to parse, because the placeholder
    put a missing value into every column. *)
Definition stored (E : ChemEngine) (smiles_list : list string) (r : list cell)
  : list cell :=
  if has_failure E smiles_list then map as_float r else r.

(** The rows of a table with every integer read as a float. *)
Definition as_floats (rs : list (string * list cell)) : list (string * list cell) :=
  map (fun kr => (fst kr, map as_float (snd kr))) rs.

(** mhfp's constructor raises for a negative number of permutations. *)
Definition constructor_accepts (c : call) : Prop :=
  match c with
  | Secfp _ nBits => 0 <= nBits
  | _ => True
  end.

(** ** A toolkit to run the encoders on *)

Module Mock.

(** Strings with the letter X do not parse. *)
Fixpoint has_X (s : string) : bool :=
  match s with
  | EmptyString => false
  | String c rest => Ascii.eqb c "X"%char || has_X rest
  end.

Definition parse (s : string) : option string :=
  if has_X s then None else Some s.

Fixpoint alternate (n : nat) (b : bool) : list bool :=
  match n with
  | O => []
  | S n' => b :: alternate n' (negb b)
  end.

Definition engine : ChemEngine :=
  {| Mol := string;
     MolFromSmiles := parse;
     AddHs := fun m => m;
     GetHashedMorganFingerprint :=
       fun m _ nBits => repeat (N.of_nat (String.length m)) (Z.to_nat nBits);
     GetMorganFingerprintAsBitVect :=
       fun _ _ nBits => alternate (Z.to_nat nBits) true;
     GetMACCSKeysFingerprint := fun _ => alternate 167 false;
     MHFPEncoder := Z;
     new_MHFPEncoder := fun n_permutations => n_permutations;
     secfp_from_mol :=
       fun _ m len _ => repeat (N.of_nat (String.length m)) (Z.to_nat len) |}.

(** A toolkit that breaks the contract: the count vector of a molecule is
    as long as its string. *)
Definition ragged : ChemEngine :=
  {| Mol := string;
     MolFromSmiles := parse;
     AddHs := fun m => m;
     GetHashedMorganFingerprint := fun m _ _ => repeat 1%N (String.length m);
     GetMorganFingerprintAsBitVect :=
       fun _ _ nBits => alternate (Z.to_nat nBits) true;
     GetMACCSKeysFingerprint := fun _ => alternate 167 false;
     MHFPEncoder := Z;
     new_MHFPEncoder := fun n_permutations => n_permutations;
     secfp_from_mol := fun _ m len _ => repeat 1%N (Z.to_nat len) |}.

End Mock.

(** ** Rows, padding and tables *)

Section Tables.

Lemma combine_map_self {A B} (f : A -> B) (l : list A) :
  combine l (map f l) = map (fun a => (a, f a)) l.
Proof.
  induction l as [|a l IH]; simpl; [reflexivity | now rewrite IH].
Qed.

Lemma max_width_ge (data : list (list cell)) (r : list cell) :
  In r data -> (length r <= max_width data)%nat.
Proof.
  induction data as [|r0 data IH]; simpl; [tauto|].
  intros [-> | Hin]; [lia | specialize (IH Hin); lia].
Qed.

Lemma max_width_le (data : list (list cell)) (k : nat) :
  (forall r, In r data -> (length r <= k)%nat) -> (max_width data <= k)%nat.
Proof.
  induction data as [|r0 data IH]; simpl; intros H; [lia|].
  assert (length r0 <= k)%nat by (apply H; now left).
  assert (max_width data <= k)%nat by (apply IH; intros r Hr; apply H; now right).
  lia.
Qed.

Lemma pad_full (k : nat) (r : list cell) :
  (k <= length r)%nat -> pad k r = r.
Proof.
  intros H. unfold pad.
  replace (k - length r)%nat with 0%nat by lia.
  simpl. apply app_nil_r.
Qed.

Lemma pad_length (k : nat) (r : list cell) :
  (length r <= k)%nat -> length (pad k r) = k.
Proof.
  intros H. unfold pad. rewrite length_app, repeat_length. lia.
Qed.

Lemma existsb_null_repeat (d : nat) :
  existsb is_null (repeat PyNone d) = negb (Nat.eqb d 0).
Proof.
  destruct d; reflexivity.
Qed.

(** A padded row without a missing value was not padded. *)
Lemma pad_null_free (k : nat) (r : list cell) :
  existsb is_null (pad k r) = false -> pad k r = r.
Proof.
  unfold pad. rewrite existsb_app, existsb_null_repeat.
  intros H. apply orb_false_elim in H as [_ H].
  destruct (k - length r)%nat; [apply app_nil_r | discriminate].
Qed.

(** A placeholder of positive length has a missing value, padded or not. *)
Lemma placeholder_has_null (k : nat) (w : Z) :
  0 < w -> existsb is_null (pad k (none_times w)) = true.
Proof.
  intros Hw. unfold pad, none_times.
  rewrite existsb_app, existsb_null_repeat.
  destruct (Z.to_nat w) eqn:Hn; [lia | reflexivity].
Qed.

Lemma existsb_null_In (r : list cell) :
  existsb is_null r = false <-> ~ In PyNone r.
Proof.
  split.
  - intros H Hin.
    assert (existsb is_null r = true) by (apply existsb_exists; now exists PyNone).
    congruence.
  - intros H. destruct (existsb is_null r) eqn:Hex; [|reflexivity].
    apply existsb_exists in Hex as [c [Hin Hc]].
    destruct c; try discriminate. contradiction.
Qed.

Lemma pd_DataFrame_map (f : string -> list cell) (l : list string) :
  pd_DataFrame (map f l) l = ret (frame_of (map f l) l).
Proof.
  destruct l as [|s l]; [reflexivity|].
  unfold pd_DataFrame. cbn [map length].
  now rewrite length_map, Nat.eqb_refl.
Qed.

Lemma as_float_null (c : cell) : is_null (as_float c) = is_null c.
Proof. destruct c; reflexivity. Qed.

Lemma infer_from_length (j : nat) (data : list (list cell)) (r : list cell) :
  length (infer_from j data r) = length r.
Proof.
  revert j. induction r as [|c r IH]; intros j; simpl;
    [reflexivity | now rewrite IH].
Qed.

(** The choice of a dtype neither makes nor removes a missing value. *)
Lemma infer_from_null (j : nat) (data : list (list cell)) (r : list cell) :
  existsb is_null (infer_from j data r) = existsb is_null r.
Proof.
  revert j. induction r as [|c r IH]; intros j; simpl; [reflexivity|].
  rewrite IH. destruct (float_column (column j data));
    [now rewrite as_float_null | reflexivity].
Qed.

(** A row whose cells are stored the same way in every column. *)
Lemma infer_from_map (g : cell -> cell) (j : nat) (data : list (list cell))
      (r : list cell) :
  (forall i c, nth_error r i = Some c ->
     (if float_column (column (j + i) data) then as_float c else c) = g c) ->
  infer_from j data r = map g r.
Proof.
  revert j. induction r as [|c r IH]; intros j H; simpl; [reflexivity|].
  f_equal.
  - specialize (H 0%nat c eq_refl). now rewrite Nat.add_0_r in H.
  - apply IH. intros i x Hx. specialize (H (S i) x Hx).
    now rewrite Nat.add_succ_r in H.
Qed.

(** A column with a missing value and otherwise numbers is a float column. *)
Lemma float_column_true (data : list (list cell)) (j : nat) (p : list cell) :
  In p data ->
  nth j p PyNone = PyNone ->
  (forall r x, In r data -> In x r -> is_null x || is_number x = true) ->
  float_column (column j data) = true.
Proof.
  intros Hp Hnull Hnum. unfold float_column, column.
  apply andb_true_intro. split.
  - apply existsb_exists. exists PyNone. split; [|reflexivity].
    apply in_map_iff. now exists p.
  - apply forallb_forall. intros x Hx.
    apply in_map_iff in Hx as [r [<- Hr]].
    destruct (nth_in_or_default j r PyNone) as [Hin | ->]; [|reflexivity].
    now apply (Hnum r).
Qed.

(** A full column without a missing value and without a float is not a
    float column. *)
Lemma float_column_false (data : list (list cell)) (j : nat) :
  (forall r, In r data -> (j < length r)%nat) ->
  (forall r x, In r data -> In x r -> is_null x || is_float x = false) ->
  float_column (column j data) = false.
Proof.
  intros Hlen Hplain. unfold float_column, column.
  apply andb_false_intro1. apply not_true_is_false. intros Hex.
  apply existsb_exists in Hex as [x [Hx Hbad]].
  apply in_map_iff in Hx as [r [<- Hr]].
  rewrite (Hplain r _ Hr (nth_In r PyNone (Hlen r Hr))) in Hbad.
  discriminate.
Qed.

Lemma rows_frame_of_map (f : string -> list cell) (l : list string) :
  rows (frame_of (map f l) l)
  = map (fun s =>
           (s, infer_row (map (pad (max_width (map f l))) (map f l))
                         (pad (max_width (map f l)) (f s))))
        l.
Proof.
  unfold frame_of, infer_dtypes. cbn [rows].
  rewrite !map_map. apply combine_map_self.
Qed.

(** Every row of a table built by [frame_of] has the table's number of
    columns. *)
Lemma frame_of_rectangular (f : string -> list cell) (l : list string) :
  Forall (fun kr => length (snd kr) = columns (frame_of (map f l) l))
         (rows (frame_of (map f l) l)).
Proof.
  rewrite rows_frame_of_map. apply Forall_forall.
  intros [k r] Hin. apply in_map_iff in Hin as [s [Heq Hs]].
  inversion Heq; subst. cbn [snd columns frame_of].
  unfold infer_row. rewrite infer_from_length.
  apply pad_length, max_width_ge, in_map, Hs.
Qed.

End Tables.

(** ** The loops *)

Section Loops.

Variable E : ChemEngine.

Lemma erroneous_In (l : list string) (s : string) :
  In s (erroneous E l) <-> In s l /\ MolFromSmiles E s = None.
Proof.
  unfold erroneous. rewrite filter_In. unfold parses.
  destruct (MolFromSmiles E s); simpl; intuition congruence.
Qed.

Lemma erroneous_nil_iff (l : list string) :
  erroneous E l = [] <-> Forall (fun s => parses E s = true) l.
Proof.
  induction l as [|s l IH]; simpl.
  - split; [constructor | reflexivity].
  - destruct (parses E s) eqn:Hs; simpl.
    + rewrite IH. split; [now constructor | now inversion 1].
    + split; [discriminate | inversion 1; congruence].
Qed.

(** A loop whose body appends one row per string, and the string itself
    when it fails to parse, maps and filters its input. *)
Lemma loop_generic (step : acc -> string -> acc) (row : string -> list cell) :
  (forall a b s,
      step (a, b) s = (a ++ [row s], if parses E s then b else b ++ [s])) ->
  forall l a b,
    fold_left step l (a, b) = (a ++ map row l, b ++ erroneous E l).
Proof.
  intros Hstep.
  induction l as [|s l IH]; intros a b; simpl.
  - now rewrite !app_nil_r.
  - rewrite Hstep, IH, <- app_assoc. simpl.
    destruct (parses E s); simpl; [reflexivity | now rewrite <- app_assoc].
Qed.

Ltac solve_loop eng c :=
  rewrite loop_generic with (row := row_of eng c);
  [ reflexivity
  | intros ? ? s;
    unfold ecfp_step, ecfc_step, maccs_step, secfp_step, row_of, parses;
    cbn [width_of descriptor];
    destruct (MolFromSmiles eng s); try reflexivity ].

Lemma loop_of_spec (c : call) (l : list string) :
  loop_of E c l = (map (row_of E c) l, erroneous E l).
Proof.
  destruct c as [r n u | r n u | | r n]; cbn [loop_of];
    unfold ecfp_loop, ecfc_loop, maccs_loop, secfp_loop.
  - solve_loop E (Ecfp r n u). destruct u; reflexivity.
  - solve_loop E (Ecfc r n u). destruct u; reflexivity.
  - solve_loop E Maccs.
  - solve_loop E (Secfp r n).
Qed.

(** Each encoder is its loop, the table, and the guarded report and
    filter. *)
Lemma invoke_loop (c : call) (l : list string) :
  invoke E c l =
  (let '(fingerprints, erroneous_smiles) := loop_of E c l in
   df <- pd_DataFrame fingerprints l ;;
   if (0 <? length erroneous_smiles)%nat
   then print (diagnostic erroneous_smiles) ;;; ret (dropna_any df)
   else ret df).
Proof. destruct c; reflexivity. Qed.

Lemma invoke_spec (c : call) (l : list string) (out : list string) :
  invoke E c l out =
  match erroneous E l with
  | [] => (Return (assembled E c l), out)
  | _ :: _ => (Return (dropna_any (assembled E c l)),
               out ++ [diagnostic (erroneous E l)])
  end.
Proof.
  rewrite invoke_loop, loop_of_spec, pd_DataFrame_map.
  unfold bind, ret, print, assembled.
  destruct (erroneous E l); reflexivity.
Qed.

Lemma rows_assembled (c : call) (l : list string) :
  rows (assembled E c l)
  = map (fun s =>
           (s, infer_row (padded_rows E c l)
                         (pad (columns (assembled E c l)) (row_of E c s))))
        l.
Proof. apply rows_frame_of_map. Qed.

Lemma has_failure_false (l : list string) :
  erroneous E l = [] -> has_failure E l = false.
Proof.
  intros Herr. apply not_true_is_false. intros Hex.
  apply existsb_exists in Hex as [s [Hs Hf]].
  apply erroneous_nil_iff in Herr. rewrite Forall_forall in Herr.
  rewrite (Herr s Hs) in Hf. discriminate.
Qed.

Lemma has_failure_true (l : list string) (e : string) (errs : list string) :
  erroneous E l = e :: errs -> has_failure E l = true.
Proof.
  intros Herr. apply existsb_exists. exists e.
  assert (He : In e (erroneous E l)) by (rewrite Herr; now left).
  unfold erroneous in He. now apply filter_In in He.
Qed.

Lemma stored_length (l : list string) (r : list cell) :
  length (stored E l r) = length r.
Proof.
  unfold stored. destruct (has_failure E l); [apply length_map | reflexivity].
Qed.

Lemma stored_null (l : list string) (r : list cell) :
  existsb is_null (stored E l r) = existsb is_null r.
Proof.
  unfold stored. destruct (has_failure E l); [|reflexivity].
  induction r as [|x r IH]; simpl; [reflexivity|].
  now rewrite as_float_null, IH.
Qed.

(** When every string parses, an encoder returns the assembled table and
    prints nothing; the keys of that table are the input. *)
Lemma invoke_all_parse (c : call) (l out : list string) :
  Forall (fun s => parses E s = true) l ->
  invoke E c l out = (Return (assembled E c l), out)
  /\ map fst (rows (assembled E c l)) = l.
Proof.
  intros Hall. apply erroneous_nil_iff in Hall.
  rewrite invoke_spec, Hall. split; [reflexivity|].
  rewrite rows_assembled, map_map. cbn [fst]. apply map_id.
Qed.

End Loops.

(** ** The diagnostic text *)

Section Diagnostic.






End Diagnostic.

(** ** The rows an encoder returns *)

Section Returned.

Variable E : ChemEngine.

Lemma list_of_str_length (s : string) :
  length (list_of_str s) = String.length s.
Proof.
  induction s as [|ch s IH]; simpl; [reflexivity | now rewrite IH].
Qed.

Lemma ToBitString_length (bv : list bool) :
  String.length (ToBitString bv) = length bv.
Proof.
  induction bv as [|b bv IH]; simpl; [reflexivity | now rewrite IH].
Qed.

Lemma list_of_str_null_free (s : string) :
  existsb is_null (list_of_str s) = false.
Proof.
  induction s as [|ch s IH]; simpl; [reflexivity | exact IH].
Qed.

Lemma list_of_uints_null_free (v : list N) :
  existsb is_null (list_of_uints v) = false.
Proof.
  induction v as [|x v IH]; simpl; [reflexivity | exact IH].
Qed.

Lemma list_of_bits_null_free (bv : list bool) :
  existsb is_null (list_of_bits bv) = false.
Proof.
  induction bv as [|b bv IH]; simpl; [reflexivity | exact IH].
Qed.

(** No descriptor row holds a missing value. *)
Lemma descriptor_null_free (c : call) (mol : Mol E) :
  existsb is_null (descriptor E c mol) = false.
Proof.
  destruct c as [r n [] | r n [] | | r n]; cbn [descriptor];
    auto using list_of_str_null_free, list_of_uints_null_free,
      list_of_bits_null_free.
Qed.

Lemma descriptor_length (HC : ToolkitContract E) (c : call) (mol : Mol E) :
  positive_morgan_width c ->
  length (descriptor E c mol) = descriptor_width c.
Proof.
  destruct HC as [Hcount Hbits Hmaccs Hsecfp].
  destruct c as [r n [] | r n [] | | r n];
    cbn [descriptor descriptor_width positive_morgan_width]; intros Hpos;
    unfold list_of_uints, list_of_bits;
    rewrite ?length_map, ?list_of_str_length, ?ToBitString_length;
    auto.
  rewrite Hsecfp by lia. reflexivity.
Qed.

Lemma contract_fixed_length (HC : ToolkitContract E) (c : call) :
  positive_morgan_width c -> fixed_length E c.
Proof.
  intros Hpos. exists (descriptor_width c).
  intros mol. now apply descriptor_length.
Qed.

Lemma row_of_parsed (c : call) (s : string) :
  parses E s = true ->
  exists mol, MolFromSmiles E s = Some mol
              /\ row_of E c s = descriptor E c (AddHs E mol).
Proof.
  unfold parses, row_of.
  destruct (MolFromSmiles E s) as [mol|]; [|discriminate].
  intros _. now exists mol.
Qed.

Lemma row_of_failed (c : call) (s : string) :
  parses E s = false -> row_of E c s = none_times (width_of c).
Proof.
  unfold parses, row_of.
  destruct (MolFromSmiles E s); [discriminate | reflexivity].
Qed.

(** When every string parses and the toolkit's vectors have one length,
    no row of the assembled table is padded. *)
Lemma all_parse_unpadded (c : call) (l : list string) (s : string) :
  fixed_length E c ->
  erroneous E l = [] ->
  In s l ->
  pad (columns (assembled E c l)) (row_of E c s) = row_of E c s.
Proof.
  intros [k Hk] Herr Hs.
  apply erroneous_nil_iff in Herr. rewrite Forall_forall in Herr.
  assert (Hlen : forall t, In t l -> length (row_of E c t) = k).
  { intros t Ht. destruct (row_of_parsed c t (Herr t Ht)) as [mol [_ ->]].
    apply Hk. }
  apply pad_full. cbn [assembled frame_of columns].
  rewrite (Hlen s Hs). apply max_width_le.
  intros r Hr. apply in_map_iff in Hr as [t [<- Ht]].
  rewrite (Hlen t Ht). lia.
Qed.

Lemma list_of_str_cells (s : string) (x : cell) :
  In x (list_of_str s) -> exists t, x = PyStr t.
Proof.
  induction s as [|ch s IH]; simpl; [contradiction|].
  intros [<- | Hin]; [eauto | auto].
Qed.

(** The cells of a descriptor row are integers or strings. *)
Lemma descriptor_cells (c : call) (mol : Mol E) (x : cell) :
  In x (descriptor E c mol) ->
  (exists z, x = PyInt z) \/ (exists t, x = PyStr t).
Proof.
  destruct c as [r n [] | r n [] | | r n]; cbn [descriptor];
    unfold list_of_uints, list_of_bits; intros Hin;
    try (apply list_of_str_cells in Hin; now right);
    apply in_map_iff in Hin as [y [<- _]]; left; eauto.
Qed.

Lemma descriptor_plain (c : call) (mol : Mol E) (x : cell) :
  In x (descriptor E c mol) -> is_null x || is_float x = false.
Proof.
  intros Hin.
  destruct (descriptor_cells c mol x Hin) as [[z ->] | [t ->]]; reflexivity.
Qed.

(** The descriptor rows of one call hold numbers only, or no integer. *)
Lemma call_cells (c : call) :
  (forall mol x, In x (descriptor E c mol) -> is_number x = true)
  \/ (forall mol x, In x (descriptor E c mol) -> as_float x = x).
Proof.
  destruct c as [r n [] | r n [] | | r n]; cbn [descriptor];
    unfold list_of_uints, list_of_bits;
    try (right; intros mol x Hin;
         apply list_of_str_cells in Hin as [t ->]; reflexivity);
    left; intros mol x Hin; apply in_map_iff in Hin as [y [<- _]]; reflexivity.
Qed.

Lemma row_of_cells (c : call) (s : string) (x : cell) :
  In x (row_of E c s) ->
  (exists mol, In x (descriptor E c mol)) \/ x = PyNone.
Proof.
  unfold row_of. destruct (MolFromSmiles E s) as [mol|]; intros Hin.
  - left. eauto.
  - right. unfold none_times in Hin. now apply repeat_spec in Hin.
Qed.

Lemma pad_cells (k : nat) (r : list cell) (x : cell) :
  In x (pad k r) -> In x r \/ x = PyNone.
Proof.
  unfold pad. intros Hin. apply in_app_or in Hin as [Hin | Hin];
    [now left | right; now apply repeat_spec in Hin].
Qed.

Lemma nth_all_none (i : nat) (p : list cell) :
  (forall x, In x p -> x = PyNone) -> nth i p PyNone = PyNone.
Proof.
  intros Hall. destruct (nth_in_or_default i p PyNone) as [Hin | Heq];
    [now apply Hall | exact Heq].
Qed.

(** When every string parses and the toolkit's vectors have one length, the
    table holds each appended row as it is. *)
Lemma clean_rows (c : call) (l : list string) (s : string) :
  fixed_length E c ->
  erroneous E l = [] ->
  In s l ->
  infer_row (padded_rows E c l)
            (pad (columns (assembled E c l)) (row_of E c s))
  = row_of E c s.
Proof.
  intros Hfix Herr Hs.
  assert (Hunpad := fun t Ht => all_parse_unpadded c l t Hfix Herr Ht).
  destruct Hfix as [k Hk].
  pose proof Herr as Hall. apply erroneous_nil_iff in Hall.
  rewrite Forall_forall in Hall.
  assert (Hrow : forall t, In t l ->
             exists mol, row_of E c t = descriptor E c (AddHs E mol)).
  { intros t Ht. destruct (row_of_parsed c t (Hall t Ht)) as [mol [_ H]].
    eauto. }
  assert (Hpadded : forall r, In r (padded_rows E c l) ->
             exists mol, r = descriptor E c (AddHs E mol)).
  { intros r Hr. unfold padded_rows in Hr. rewrite map_map in Hr.
    apply in_map_iff in Hr as [t [<- Ht]].
    change (max_width (map (row_of E c) l)) with (columns (assembled E c l)).
    rewrite (Hunpad t Ht). now apply Hrow. }
  rewrite (Hunpad s Hs). unfold infer_row.
  rewrite (infer_from_map (fun x => x)); [apply map_id|].
  intros i x Hx. cbn [Nat.add].
  rewrite float_column_false; [reflexivity | |].
  - intros r Hr. destruct (Hpadded r Hr) as [mol ->]. rewrite Hk.
    destruct (Hrow s Hs) as [mol' Hs']. rewrite Hs' in Hx.
    rewrite <- (Hk (AddHs E mol')). apply nth_error_Some. congruence.
  - intros r y Hr Hy. destruct (Hpadded r Hr) as [mol ->].
    now apply (descriptor_plain c (AddHs E mol)).
Qed.

(** When some string fails to parse, a row of the table without a missing
    value is the appended row with its integers as floats: the placeholder
    has put a missing value into every column. *)
Lemma failure_rows (c : call) (l : list string) (s0 s : string) :
  In s0 l ->
  parses E s0 = false ->
  existsb is_null (pad (columns (assembled E c l)) (row_of E c s)) = false ->
  infer_row (padded_rows E c l)
            (pad (columns (assembled E c l)) (row_of E c s))
  = map as_float (row_of E c s).
Proof.
  intros Hs0 Hfail Hnn. rewrite (pad_null_free _ _ Hnn).
  unfold infer_row. apply infer_from_map. intros i x Hx. cbn [Nat.add].
  apply nth_error_In in Hx.
  destruct (call_cells c) as [Hnum | Hstr].
  - rewrite float_column_true
      with (p := pad (columns (assembled E c l)) (row_of E c s0));
      [reflexivity | | |].
    + unfold padded_rows. apply in_map, in_map, Hs0.
    + apply nth_all_none. intros y Hy.
      apply pad_cells in Hy as [Hy | Hy]; [|exact Hy].
      rewrite (row_of_failed c s0 Hfail) in Hy.
      unfold none_times in Hy. now apply repeat_spec in Hy.
    + intros r y Hr Hy. unfold padded_rows in Hr.
      apply in_map_iff in Hr as [r0 [<- Hr0]].
      apply in_map_iff in Hr0 as [t [<- _]].
      apply pad_cells in Hy as [Hy | ->]; [|reflexivity].
      apply row_of_cells in Hy as [[mol Hy] | ->]; [|reflexivity].
      rewrite (Hnum mol y Hy). apply orb_true_r.
  - assert (Hx' : as_float x = x).
    { apply row_of_cells in Hx as [[mol Hx] | ->];
        [now apply (Hstr mol) | reflexivity]. }
    rewrite Hx'. now destruct (float_column _).
Qed.

(** A returned row is the row appended for its key, unpadded, as the table
    stores it. *)
Lemma returned_row (c : call) (l out out' : list string) (df : DataFrame)
      (k : string) (r : list cell) :
  fixed_length E c ->
  invoke E c l out = (Return df, out') ->
  In (k, r) (rows df) ->
  In k l /\ r = stored E l (row_of E c k).
Proof.
  intros Hfix Hrun Hin. rewrite invoke_spec in Hrun. unfold stored.
  destruct (erroneous E l) as [|e errs] eqn:Herr.
  - inversion Hrun; subst df out'; clear Hrun.
    rewrite (has_failure_false E l Herr).
    rewrite rows_assembled in Hin.
    apply in_map_iff in Hin as [s [Heq Hs]]. inversion Heq; subst k r.
    split; [exact Hs | now apply clean_rows].
  - inversion Hrun; subst df out'; clear Hrun.
    rewrite (has_failure_true E l e errs Herr).
    cbn [dropna_any rows] in Hin. apply filter_In in Hin as [Hin Hnn].
    rewrite rows_assembled in Hin.
    apply in_map_iff in Hin as [s [Heq Hs]]. inversion Heq; subst k r.
    split; [exact Hs|].
    assert (He : In e (erroneous E l)) by (rewrite Herr; now left).
    apply erroneous_In in He as [He Hfail].
    apply (failure_rows c l e s He).
    + unfold parses. now rewrite Hfail.
    + unfold row_has_null in Hnn. cbn [snd] in Hnn.
      apply negb_true_iff in Hnn. unfold infer_row in Hnn.
      now rewrite infer_from_null in Hnn.
Qed.

End Returned.

(** ** What the filter keeps *)

Section Filtering.

Variable E : ChemEngine.

Lemma filter_map_commute {A B} (p : B -> bool) (q : A -> bool)
      (g g' : A -> B) (l : list A) :
  (forall a, p (g a) = q a) ->
  (forall a, q a = true -> g a = g' a) ->
  filter p (map g l) = map g' (filter q l).
Proof.
  intros Hp Hg. induction l as [|a l IH]; simpl; [reflexivity|].
  rewrite Hp. destruct (q a) eqn:Hq; simpl; [|exact IH].
  now rewrite IH, (Hg a Hq).
Qed.

Lemma filter_all {A} (q : A -> bool) (l : list A) :
  Forall (fun a => q a = true) l -> filter q l = l.
Proof.
  induction 1 as [|a l Ha _ IH]; simpl; [reflexivity|].
  now rewrite Ha, IH.
Qed.

Lemma count_occ_filter (q : string -> bool) (l : list string) (s : string) :
  q s = true ->
  count_occ string_dec (filter q l) s = count_occ string_dec l s.
Proof.
  intros Hs. induction l as [|a l IH]; simpl; [reflexivity|].
  destruct (string_dec a s) as [-> | Hne].
  - rewrite Hs. simpl. destruct (string_dec s s); [now rewrite IH | contradiction].
  - destruct (q a); simpl; [|exact IH].
    destruct (string_dec a s); [contradiction | exact IH].
Qed.


Lemma assembled_columns_le (c : call) (l : list string) (k : nat) :
  (forall mol, length (descriptor E c mol) = k) ->
  (Z.to_nat (width_of c) <= k)%nat ->
  (columns (assembled E c l) <= k)%nat.
Proof.
  intros Hk Hw. cbn [assembled frame_of columns]. apply max_width_le.
  intros r Hr. apply in_map_iff in Hr as [t [<- _]].
  unfold row_of. destruct (MolFromSmiles E t) as [mol|].
  - rewrite Hk. lia.
  - unfold none_times. rewrite repeat_length. exact Hw.
Qed.

(** With placeholders of positive length that fit, the filter keeps the
    rows of the strings that parsed, and nothing else. *)
Lemma dropna_keeps_parsed (c : call) (l : list string) :
  0 < width_of c ->
  placeholder_fits E c ->
  has_failure E l = true ->
  rows (dropna_any (assembled E c l))
  = map (fun s => (s, stored E l (row_of E c s))) (filter (parses E) l).
Proof.
  intros Hw [k [Hk Hfit]] Hfail.
  cbn [dropna_any rows]. rewrite rows_assembled.
  assert (Hcol := assembled_columns_le c l k Hk Hfit).
  assert (Hpad : forall s, parses E s = true ->
              pad (columns (assembled E c l)) (row_of E c s) = row_of E c s).
  { intros s Hs. destruct (row_of_parsed E c s Hs) as [mol [_ Hrow]].
    apply pad_full. rewrite Hrow, Hk. exact Hcol. }
  assert (Hnull : forall s,
              existsb is_null (pad (columns (assembled E c l)) (row_of E c s))
              = negb (parses E s)).
  { intros s. destruct (parses E s) eqn:Hs.
    - rewrite (Hpad s Hs).
      destruct (row_of_parsed E c s Hs) as [mol [_ ->]].
      now rewrite descriptor_null_free.
    - now rewrite (row_of_failed E c s Hs), (placeholder_has_null _ _ Hw). }
  pose proof Hfail as Hex. apply existsb_exists in Hex as [s0 [Hs0 Hf0]].
  apply negb_true_iff in Hf0.
  apply filter_map_commute.
  - intros s. unfold row_has_null, infer_row. cbn [snd].
    rewrite infer_from_null, Hnull. apply negb_involutive.
  - intros s Hs. f_equal. unfold stored. rewrite Hfail.
    apply (failure_rows E c l s0 s Hs0 Hf0).
    now rewrite Hnull, Hs.
Qed.

Lemma contract_placeholder_fits (HC : ToolkitContract E) (c : call) :
  0 < width_of c ->
  within_secfp_length c ->
  placeholder_fits E c.
Proof.
  intros Hw Hfit. exists (descriptor_width c). split.
  - intros mol. apply descriptor_length; [exact HC|].
    destruct c; cbn [positive_morgan_width width_of] in *; auto.
  - destruct c; cbn [descriptor_width width_of within_secfp_length] in *; lia.
Qed.

End Filtering.

(** ** The mock toolkit keeps the contract *)

Module MockFacts.

Lemma alternate_length (n : nat) (b : bool) :
  length (Mock.alternate n b) = n.
Proof.
  revert b. induction n as [|n IH]; intros b; simpl;
    [reflexivity | now rewrite IH].
Qed.

Lemma contract : ToolkitContract Mock.engine.
Proof.
  constructor; intros; cbn;
    rewrite ?repeat_length, ?alternate_length; reflexivity.
Qed.

End MockFacts.

(** ** Shared facts about an invocation *)

Section Invocation.

Variable E : ChemEngine.

Lemma invoke_returns (c : call) (l out : list string) :
  exists df out', invoke E c l out = (Return df, out').
Proof.
  rewrite invoke_spec. destruct (erroneous E l); eauto.
Qed.

(** A returned row belongs to a string that parsed, or holds no missing
    value. *)
Lemma returned_row_parsed_or_null_free
      (c : call) (l out out' : list string) (df : DataFrame)
      (k : string) (r : list cell) :
  invoke E c l out = (Return df, out') ->
  In (k, r) (rows df) ->
  parses E k = true \/ existsb is_null r = false.
Proof.
  intros Hrun Hin. rewrite invoke_spec in Hrun.
  destruct (erroneous E l) as [|e errs] eqn:Herr;
    inversion Hrun; subst df out'; clear Hrun.
  - left. rewrite rows_assembled in Hin.
    apply in_map_iff in Hin as [s [Heq Hs]]. inversion Heq; subst k r.
    apply erroneous_nil_iff in Herr. rewrite Forall_forall in Herr. auto.
  - right. cbn [dropna_any rows] in Hin. apply filter_In in Hin as [_ Hnn].
    unfold row_has_null in Hnn. cbn [snd] in Hnn.
    now apply negb_true_iff in Hnn.
Qed.

Lemma none_times_null_free (w : Z) :
  existsb is_null (none_times w) = false -> none_times w = [].
Proof.
  unfold none_times. destruct (Z.to_nat w); [reflexivity | discriminate].
Qed.

(** When every string parses and the toolkit's vectors have one length, the
    rows of the returned table are the appended rows. *)
Lemma all_parse_rows (c : call) (l : list string) :
  fixed_length E c ->
  erroneous E l = [] ->
  rows (assembled E c l) = map (fun s => (s, row_of E c s)) l.
Proof.
  intros Hfix Herr. rewrite rows_assembled.
  apply map_ext_in. intros s Hs. now rewrite (clean_rows E c l s Hfix Herr Hs).
Qed.

(** With a toolkit that keeps its contract and a placeholder of positive
    length that fits, the returned rows are the rows of the strings that
    parsed, as the table stores them. *)
Lemma returned_rows_spec (c : call) (l out out' : list string) (df : DataFrame) :
  ToolkitContract E ->
  0 < width_of c ->
  within_secfp_length c ->
  invoke E c l out = (Return df, out') ->
  rows df = map (fun s => (s, stored E l (row_of E c s))) (filter (parses E) l).
Proof.
  intros HC Hw Hfit Hrun. rewrite invoke_spec in Hrun.
  destruct (erroneous E l) as [|e errs] eqn:Herr;
    inversion Hrun; subst df out'; clear Hrun.
  - assert (Hfix : fixed_length E c).
    { apply contract_fixed_length; [exact HC|].
      destruct c; cbn [positive_morgan_width width_of] in *; auto. }
    pose proof Herr as Hall. apply erroneous_nil_iff in Hall.
    rewrite (filter_all _ _ Hall), (all_parse_rows c l Hfix Herr).
    unfold stored. now rewrite (has_failure_false E l Herr).
  - apply dropna_keeps_parsed; [exact Hw | |].
    + now apply contract_placeholder_fits.
    + exact (has_failure_true E l e errs Herr).
Qed.

Lemma max_width_const (data : list (list cell)) (k : nat) :
  data <> [] ->
  (forall r, In r data -> length r = k) ->
  max_width data = k.
Proof.
  intros Hne Hall. apply Nat.le_antisymm.
  - apply max_width_le. intros r Hr. rewrite (Hall r Hr). lia.
  - destruct data as [|r data]; [contradiction|].
    rewrite <- (Hall r (or_introl eq_refl)). apply max_width_ge. now left.
Qed.

Lemma filter_map_none {A B} (p : B -> bool) (g : A -> B) (l : list A) :
  (forall a, p (g a) = false) -> filter p (map g l) = [].
Proof.
  intros Hp. induction l as [|a l IH]; simpl; [reflexivity|].
  now rewrite Hp.
Qed.

Lemma count_occ_filter_out (q : string -> bool) (l : list string) (s : string) :
  q s = false -> count_occ string_dec (filter q l) s = 0%nat.
Proof.
  intros Hs. apply count_occ_not_In. intros Hin.
  apply filter_In in Hin as [_ Hq]. congruence.
Qed.

Lemma Forall2_map_self {A B} (P : A -> B -> Prop) (g : A -> B) (l : list A) :
  (forall a, In a l -> P a (g a)) -> Forall2 P l (map g l).
Proof.
  induction l as [|a l IH]; intros H; simpl; constructor.
  - apply H. now left.
  - apply IH. intros b Hb. apply H. now right.
Qed.

Lemma bit_string_entries (bv : list bool) :
  Forall bit_character (list_of_str (ToBitString bv)).
Proof.
  induction bv as [|b bv IH]; simpl; constructor; [|exact IH].
  destruct b; [now right | now left].
Qed.

Lemma uint_entries (v : list N) : Forall (number_cell false) (list_of_uints v).
Proof.
  induction v as [|x v IH]; simpl; constructor; [|exact IH].
  exists (Z.of_N x). split; [lia | reflexivity].
Qed.

Lemma stored_bit_characters (l : list string) (r : list cell) :
  Forall bit_character r -> Forall bit_character (stored E l r).
Proof.
  unfold stored. destruct (has_failure E l); [|auto].
  intros H. apply Forall_map. eapply Forall_impl; [|exact H].
  intros x [-> | ->]; [now left | now right].
Qed.

Lemma stored_numbers (l : list string) (r : list cell) :
  Forall (number_cell false) r ->
  Forall (number_cell (has_failure E l)) (stored E l r).
Proof.
  unfold stored. destruct (has_failure E l); [|auto].
  intros H. apply Forall_map. eapply Forall_impl; [|exact H].
  intros x [n [Hn ->]]. exists n. now split.
Qed.

(** With [nBits] above 2048 and a string that fails to parse, the table of
    [get_secfp] has [nBits] columns and the filter leaves no row. *)
Lemma secfp_wide_table (l : list string) (radius nBits : Z) (s : string)
      (out : list string) :
  ToolkitContract E ->
  2048 < nBits ->
  In s l ->
  MolFromSmiles E s = None ->
  get_secfp E l radius nBits out
  = (Return {| columns := Z.to_nat nBits; rows := [] |},
     out ++ [diagnostic (erroneous E l)]).
Proof.
  intros HC Hn Hs Hfail.
  pose (c := Secfp radius nBits).
  change (get_secfp E l radius nBits out) with (invoke E c l out).
  rewrite invoke_spec.
  assert (Herr : In s (erroneous E l)) by (apply erroneous_In; auto).
  destruct (erroneous E l) as [|e errs] eqn:Heq; [contradiction|].
  rewrite <- Heq. f_equal. f_equal.
  assert (Hrow : forall t, (length (row_of E c t) <= Z.to_nat nBits)%nat).
  { intros t. unfold row_of. destruct (MolFromSmiles E t) as [mol|].
    - rewrite descriptor_length by (exact HC || exact I).
      cbn [descriptor_width c]. lia.
    - unfold none_times. rewrite repeat_length. cbn [width_of c]. lia. }
  assert (Hcol : columns (assembled E c l) = Z.to_nat nBits).
  { cbn [assembled frame_of columns]. apply Nat.le_antisymm.
    - apply max_width_le. intros r Hr.
      apply in_map_iff in Hr as [t [<- _]]. apply Hrow.
    - assert (Hp : row_of E c s = none_times nBits)
        by (apply row_of_failed; unfold parses; now rewrite Hfail).
      replace (Z.to_nat nBits) with (length (row_of E c s))
        by (rewrite Hp; apply repeat_length).
      apply max_width_ge, in_map, Hs. }
  unfold dropna_any. rewrite Hcol. f_equal.
  cbn [rows]. rewrite rows_assembled, Hcol.
  apply filter_map_none.
  intros t. unfold row_has_null, infer_row. cbn [snd].
  rewrite infer_from_null. apply negb_false_iff.
  unfold pad. rewrite existsb_app, existsb_null_repeat.
  unfold row_of. destruct (MolFromSmiles E t) as [mol|].
  - rewrite descriptor_length by (exact HC || exact I).
    cbn [descriptor_width c].
    replace (Z.to_nat nBits - 2048 =? 0)%nat with false;
      [apply orb_true_r|].
    symmetry. apply Nat.eqb_neq. lia.
  - unfold none_times. cbn [width_of c].
    destruct (Z.to_nat nBits) eqn:Hz; [lia | reflexivity].
Qed.

End Invocation.

(** ** The encoders' properties *)

(** C3. [get_ecfc] is [get_ecfp] with the flag given as true: called with
    the same list, radius, width and flag the two run the same computation
    (same table, same printed text); with the flag left out, [get_ecfc]
    behaves as [get_ecfp] with [useCounts = True], and [get_ecfp] as
    [get_ecfc] with [useCounts = False], so the default of the flag is the
    one difference. *)
Theorem get_ecfc_is_get_ecfp_with_counts :
  forall (E : ChemEngine) (smiles_list : list string),
    (forall (radius nBits : Z) (useCounts : bool),
        get_ecfc E smiles_list radius nBits useCounts
        = get_ecfp E smiles_list radius nBits useCounts)
    /\ (forall (radius nBits : option Z) (useCounts : bool),
           call_get_ecfc E smiles_list radius nBits (Some useCounts)
           = call_get_ecfp E smiles_list radius nBits (Some useCounts))
    /\ (forall radius nBits : option Z,
           call_get_ecfc E smiles_list radius nBits None
           = call_get_ecfp E smiles_list radius nBits (Some true))
    /\ (forall radius nBits : option Z,
           call_get_ecfp E smiles_list radius nBits None
           = call_get_ecfc E smiles_list radius nBits (Some false)).
Proof.
  intros E l.
  assert (Hsame : forall r n u, get_ecfc E l r n u = get_ecfp E l r n u).
  { intros r n u. unfold get_ecfc, get_ecfp.
    change (ecfc_loop E l r n u) with (loop_of E (Ecfc r n u) l).
    change (ecfp_loop E l r n u) with (loop_of E (Ecfp r n u) l).
    now rewrite !loop_of_spec. }
  repeat split; intros; unfold call_get_ecfc, call_get_ecfp; cbn [default];
    auto.
Qed.

(** C6. When every string of the input parses, an encoder returns one row
    per input string, in the order of the input, each under the input
    string as its key; and when the toolkit's vectors have one length, the
    row at each position holds the descriptor of the molecule parsed from
    the input string at that position, with its hydrogens added. *)
Theorem rows_follow_input_order :
  forall (E : ChemEngine) (c : call) (smiles_list out : list string),
    Forall (fun s => parses E s = true) smiles_list ->
    exists df,
      invoke E c smiles_list out = (Return df, out)
      /\ map fst (rows df) = smiles_list
      /\ length (rows df) = length smiles_list
      /\ (fixed_length E c ->
          Forall2 (fun s kr =>
                     fst kr = s
                     /\ exists mol,
                         MolFromSmiles E s = Some mol
                         /\ snd kr = descriptor E c (AddHs E mol))
                  smiles_list (rows df)).
Proof.
  intros E c l out Hall.
  destruct (invoke_all_parse E c l out Hall) as [Hrun Hkeys].
  exists (assembled E c l). repeat split; [exact Hrun | exact Hkeys | |].
  - now rewrite <- Hkeys at 2; rewrite length_map.
  - intros Hfix. pose proof Hall as Herr. apply erroneous_nil_iff in Herr.
    rewrite (all_parse_rows E c l Hfix Herr).
    apply Forall2_map_self. intros s Hs. cbn [fst snd].
    split; [reflexivity|].
    rewrite Forall_forall in Hall.
    destruct (row_of_parsed E c s (Hall s Hs)) as [mol [Hmol Hrow]].
    now exists mol.
Qed.

Lemma rows_follow_input_order_witness :
  Forall (fun s => parses Mock.engine s = true) ["CCCC"; "CO"; "CCCC"]
  /\ fixed_length Mock.engine (Ecfp 2 8 true)
  /\ exists df,
      invoke Mock.engine (Ecfp 2 8 true) ["CCCC"; "CO"; "CCCC"] []
      = (Return df, [])
      /\ map fst (rows df) = ["CCCC"; "CO"; "CCCC"]
      /\ length (rows df) = length ["CCCC"; "CO"; "CCCC"]
      /\ Forall2 (fun s kr =>
                    fst kr = s
                    /\ exists mol,
                        MolFromSmiles Mock.engine s = Some mol
                        /\ snd kr = descriptor Mock.engine (Ecfp 2 8 true)
                                               (AddHs Mock.engine mol))
                 ["CCCC"; "CO"; "CCCC"] (rows df).
Proof.
  assert (H : Forall (fun s => parses Mock.engine s = true)
                     ["CCCC"; "CO"; "CCCC"])
    by (repeat constructor).
  assert (Hfix : fixed_length Mock.engine (Ecfp 2 8 true)).
  { apply (contract_fixed_length Mock.engine MockFacts.contract). cbn. lia. }
  split; [exact H|]. split; [exact Hfix|].
  destruct (rows_follow_input_order Mock.engine (Ecfp 2 8 true)
              ["CCCC"; "CO"; "CCCC"] [] H)
    as [df [H1 [H2 [H3 H4]]]].
  exists df. exact (conj H1 (conj H2 (conj H3 (H4 Hfix)))).
Defined.

(** C8. When every string of the input parses, the list of erroneous
    strings is empty at the end of the loop, nothing is printed, and the
    encoder returns the table of [pd.DataFrame] as it is: no row is
    filtered, also not one that holds a missing value. *)
Theorem no_failure_no_filter :
  forall (E : ChemEngine) (c : call) (smiles_list out : list string),
    Forall (fun s => parses E s = true) smiles_list ->
    snd (loop_of E c smiles_list) = []
    /\ invoke E c smiles_list out
       = pd_DataFrame (fst (loop_of E c smiles_list)) smiles_list out
    /\ snd (invoke E c smiles_list out) = out
    /\ forall df, fst (invoke E c smiles_list out) = Return df ->
         forall kr, In kr (rows (assembled E c smiles_list)) -> In kr (rows df).
Proof.
  intros E c l out Hall. apply erroneous_nil_iff in Hall.
  rewrite invoke_spec, loop_of_spec, Hall. cbn [fst snd].
  rewrite pd_DataFrame_map. unfold ret, assembled.
  repeat split. intros df Hdf kr Hin. now inversion Hdf; subst.
Qed.

Lemma no_failure_no_filter_witness :
  Forall (fun s => parses Mock.engine s = true) ["CCCC"; "CO"]
  /\ snd (loop_of Mock.engine (Secfp 3 16) ["CCCC"; "CO"]) = []
  /\ invoke Mock.engine (Secfp 3 16) ["CCCC"; "CO"] []
     = pd_DataFrame (fst (loop_of Mock.engine (Secfp 3 16) ["CCCC"; "CO"]))
                    ["CCCC"; "CO"] []
  /\ snd (invoke Mock.engine (Secfp 3 16) ["CCCC"; "CO"] []) = [].
Proof.
  assert (H : Forall (fun s => parses Mock.engine s = true) ["CCCC"; "CO"])
    by (repeat constructor).
  split; [exact H|].
  destruct (no_failure_no_filter Mock.engine (Secfp 3 16) ["CCCC"; "CO"] [] H)
    as [H1 [H2 [H3 _]]].
  exact (conj H1 (conj H2 H3)).
Defined.

(** The guard looks at the list of erroneous strings, not at the table:
    with a toolkit whose vectors differ in length the table of an input
    that parses throughout has padded rows, and they are returned; the
    columns with a missing value hold floats. *)
Example padded_rows_survive_without_failure :
  get_ecfp Mock.ragged ["CCCC"; "CO"] 2 4 true []
  = (Return {| columns := 4;
               rows := [("CCCC", [PyInt 1; PyInt 1; PyFloat 1; PyFloat 1]);
                        ("CO", [PyInt 1; PyInt 1; PyNone; PyNone])] |},
     []).
Proof. reflexivity. Qed.

(** C9. On the empty list every encoder returns the table without rows,
    prints nothing and raises nothing. *)
Theorem empty_input_empty_table :
  forall (E : ChemEngine) (c : call) (out : list string),
    invoke E c [] out = (Return {| columns := 0; rows := [] |}, out).
Proof.
  intros E c out. destruct c; reflexivity.
Qed.

(** C1. The width of a SECFP row does not follow [nBits]: with a toolkit
    that keeps its contract, every row [get_secfp] returns for a list of
    strings that parse has 2048 entries (the [length=2048] of the call to
    [secfp_from_mol]), whatever [nBits] is, so for [nBits] other than 2048
    no returned row has [nBits] entries. *)
Theorem get_secfp_rows_have_2048_entries :
  forall (E : ChemEngine) (smiles_list : list string) (radius nBits : Z)
         (out : list string),
    ToolkitContract E ->
    Forall (fun s => parses E s = true) smiles_list ->
    exists df,
      get_secfp E smiles_list radius nBits out = (Return df, out)
      /\ map fst (rows df) = smiles_list
      /\ Forall (fun kr => length (snd kr) = 2048%nat) (rows df)
      /\ (nBits <> 2048 ->
          Forall (fun kr => length (snd kr) <> Z.to_nat nBits) (rows df)).
Proof.
  intros E l radius nBits out HC Hall.
  destruct (invoke_all_parse E (Secfp radius nBits) l out Hall) as [Hrun Hkeys].
  set (df := assembled E (Secfp radius nBits) l) in *.
  exists df. cbn [invoke] in Hrun.
  assert (Hlen : Forall (fun kr => length (snd kr) = 2048%nat) (rows df)).
  { apply Forall_forall. intros [k r] Hin.
    assert (Hfix : fixed_length E (Secfp radius nBits))
      by (apply contract_fixed_length; [exact HC | exact I]).
    destruct (returned_row E (Secfp radius nBits) l out out df k r Hfix Hrun Hin)
      as [Hk ->].
    rewrite Forall_forall in Hall.
    destruct (row_of_parsed E (Secfp radius nBits) k (Hall k Hk)) as [mol [_ ->]].
    cbn [snd]. rewrite stored_length.
    now rewrite descriptor_length by (exact HC || exact I). }
  repeat split; auto.
  intros Hne. eapply Forall_impl; [|exact Hlen].
  intros kr ->. intros Heq.
  assert (Z.of_nat 2048 = Z.of_nat (Z.to_nat nBits)) by now rewrite <- Heq.
  lia.
Qed.

Lemma get_secfp_rows_have_2048_entries_witness :
  Forall (fun s => parses Mock.engine s = true) ["CCCC"]
  /\ exists df,
      get_secfp Mock.engine ["CCCC"] 3 1024 [] = (Return df, [])
      /\ map fst (rows df) = ["CCCC"]
      /\ Forall (fun kr => length (snd kr) = 2048%nat) (rows df)
      /\ (1024 <> 2048 ->
          Forall (fun kr => length (snd kr) <> Z.to_nat 1024) (rows df)).
Proof.
  assert (H : Forall (fun s => parses Mock.engine s = true) ["CCCC"])
    by (repeat constructor).
  split; [exact H|].
  exact (get_secfp_rows_have_2048_entries Mock.engine ["CCCC"] 3 1024 []
           MockFacts.contract H).
Defined.

(** C2. The rows the loop of [get_secfp] appends are not of one length:
    with a toolkit that keeps its contract, the row of a string that
    parses has 2048 entries and the placeholder of a string that does not
    has [nBits]. *)
Theorem secfp_loop_row_lengths :
  forall (E : ChemEngine) (smiles_list : list string) (radius nBits : Z),
    ToolkitContract E ->
    map (@length cell) (fst (secfp_loop E smiles_list radius nBits))
    = map (fun s => if parses E s then 2048%nat else Z.to_nat nBits)
          smiles_list.
Proof.
  intros E l radius nBits HC.
  change (secfp_loop E l radius nBits) with (loop_of E (Secfp radius nBits) l).
  rewrite loop_of_spec. cbn [fst]. rewrite map_map.
  apply map_ext. intros s. destruct (parses E s) eqn:Hs.
  - destruct (row_of_parsed E (Secfp radius nBits) s Hs) as [mol [_ ->]].
    now rewrite descriptor_length by (exact HC || exact I).
  - rewrite (row_of_failed E _ s Hs). apply repeat_length.
Qed.

Lemma secfp_loop_row_lengths_witness :
  map (@length cell) (fst (secfp_loop Mock.engine ["CCCC"; "XXXX"] 3 1024))
  = [2048%nat; 1024%nat].
Proof.
  exact (secfp_loop_row_lengths Mock.engine ["CCCC"; "XXXX"] 3 1024
           MockFacts.contract).
Defined.

(** At one input: in bit mode the entries of a returned row are the strings
    "0" and "1", not the integers 0 and 1. *)
Lemma ecfp_bit_mode_entries_are_not_integers :
  parses Mock.engine "CCCC" = true
  /\ get_ecfp Mock.engine ["CCCC"] 2 4 false []
     = (Return {| columns := 4;
                  rows := [("CCCC", [PyStr "1"; PyStr "0"; PyStr "1"; PyStr "0"])] |},
        [])
  /\ ~ Forall (fun x => x = PyInt 0 \/ x = PyInt 1)
              [PyStr "1"; PyStr "0"; PyStr "1"; PyStr "0"].
Proof.
  repeat split. intros H. inversion H as [|x xs [Hx | Hx] _]; discriminate.
Qed.

(** C4. The cells [get_ecfp] returns are not all integers.  When the
    toolkit's vectors have one length, every entry of every returned row
    is, with [useCounts] false, the one-character string "0" or "1" (line
    44 splits the bit string into its characters); with [useCounts] true
    it is a number that is not negative, an integer when every string of
    the input parsed and a float when one failed. *)
Theorem get_ecfp_entries :
  forall (E : ChemEngine) (smiles_list : list string) (radius nBits : Z)
         (useCounts : bool) (out : list string),
    fixed_length E (Ecfp radius nBits useCounts) ->
    exists df out',
      get_ecfp E smiles_list radius nBits useCounts out = (Return df, out')
      /\ Forall (fun kr =>
                   Forall (if useCounts
                           then number_cell (has_failure E smiles_list)
                           else bit_character)
                          (snd kr))
                (rows df).
Proof.
  intros E l radius nBits u out Hfix.
  pose (c := Ecfp radius nBits u).
  destruct (invoke_returns E c l out) as [df [out' Hrun]].
  exists df, out'. split; [exact Hrun|].
  apply Forall_forall. intros [k r] Hin. cbn [snd].
  destruct (returned_row E c l out out' df k r Hfix Hrun Hin) as [_ Hr].
  assert (Hparsed : parses E k = true ->
            Forall (if u then number_cell (has_failure E l) else bit_character) r).
  { intros Hk. destruct (row_of_parsed E c k Hk) as [mol [_ Hrow]].
    rewrite Hr, Hrow. subst c. cbn [descriptor].
    destruct u;
      [apply stored_numbers, uint_entries
      | apply stored_bit_characters, bit_string_entries]. }
  destruct (returned_row_parsed_or_null_free E c l out out' df k r Hrun Hin)
    as [Hk | Hnn]; [now apply Hparsed|].
  destruct (parses E k) eqn:Hk; [now apply Hparsed|].
  rewrite Hr, stored_null, (row_of_failed E c k Hk) in Hnn.
  rewrite Hr, (row_of_failed E c k Hk), (none_times_null_free _ Hnn).
  unfold stored. destruct (has_failure E l); constructor.
Qed.

Lemma get_ecfp_entries_witness :
  fixed_length Mock.engine (Ecfp 2 4 false)
  /\ exists df out',
      get_ecfp Mock.engine ["CCCC"] 2 4 false [] = (Return df, out')
      /\ Forall (fun kr => Forall bit_character (snd kr)) (rows df).
Proof.
  assert (Hfix : fixed_length Mock.engine (Ecfp 2 4 false)).
  { apply (contract_fixed_length Mock.engine MockFacts.contract). cbn. lia. }
  split; [exact Hfix|].
  exact (get_ecfp_entries Mock.engine ["CCCC"] 2 4 false [] Hfix).
Defined.

(** C5. With a width that is not positive and an input of which no string
    parses, the placeholders are empty rows, hold no missing value, and
    are all returned, under their keys and in input order, after the
    diagnostic that announces their removal. *)
Theorem empty_placeholders_are_returned :
  forall (E : ChemEngine) (c : call) (smiles_list out : list string),
    width_of c <= 0 ->
    constructor_accepts c ->
    smiles_list <> [] ->
    Forall (fun s => parses E s = false) smiles_list ->
    invoke E c smiles_list out
    = (Return {| columns := 0; rows := map (fun s => (s, [])) smiles_list |},
       out ++ [diagnostic smiles_list]).
Proof.
  intros E c l out Hw _ Hne Hall.
  assert (Herr : erroneous E l = l).
  { apply filter_all. eapply Forall_impl; [|exact Hall].
    intros s Hs. cbn beta. now rewrite Hs. }
  assert (Hrows : map (row_of E c) l = map (fun _ => []) l).
  { apply map_ext_in. intros s Hs. rewrite Forall_forall in Hall.
    rewrite (row_of_failed E c s (Hall s Hs)). unfold none_times.
    replace (Z.to_nat (width_of c)) with 0%nat by lia. reflexivity. }
  assert (Hmax : max_width (map (fun _ : string => @nil cell) l) = 0%nat).
  { apply Nat.le_antisymm; [|lia]. apply max_width_le.
    intros r Hr. apply in_map_iff in Hr as [s [<- _]]. simpl. lia. }
  assert (Hasm : assembled E c l
                 = {| columns := 0; rows := map (fun s => (s, [])) l |}).
  { unfold assembled, frame_of, infer_dtypes. rewrite Hrows, Hmax. f_equal.
    rewrite !map_map. apply combine_map_self. }
  rewrite invoke_spec, Herr, Hasm.
  destruct l as [|s l]; [contradiction|].
  f_equal. f_equal. unfold dropna_any. cbn [columns rows]. f_equal.
  apply filter_all. apply Forall_forall.
  intros kr Hkr. apply in_map_iff in Hkr as [t [<- _]]. reflexivity.
Qed.

Lemma empty_placeholders_are_returned_witness :
  width_of (Ecfp 2 0 false) <= 0
  /\ constructor_accepts (Ecfp 2 0 false)
  /\ ["XXXX"] <> []
  /\ Forall (fun s => parses Mock.engine s = false) ["XXXX"]
  /\ invoke Mock.engine (Ecfp 2 0 false) ["XXXX"] []
     = (Return {| columns := 0; rows := map (fun s => (s, [])) ["XXXX"] |},
        [] ++ [diagnostic ["XXXX"]]).
Proof.
  assert (Hw : width_of (Ecfp 2 0 false) <= 0) by (cbn; lia).
  assert (Hacc : constructor_accepts (Ecfp 2 0 false)) by exact I.
  assert (Hne : ["XXXX"] <> []) by discriminate.
  assert (Hall : Forall (fun s => parses Mock.engine s = false) ["XXXX"])
    by (repeat constructor).
  repeat (split; [assumption|]).
  exact (empty_placeholders_are_returned Mock.engine (Ecfp 2 0 false) ["XXXX"]
           [] Hw Hacc Hne Hall).
Defined.

(** C10. With a toolkit that keeps its contract, [nBits] above 2048 and an
    input with a string that fails to parse and a string that parses,
    [get_secfp] returns no row at all, although a string parsed: the rows of
    2048 entries are filled up to the [nBits] columns of the placeholder
    with missing values and filtered out. *)
Theorem get_secfp_loses_parsed_rows :
  forall (E : ChemEngine) (smiles_list : list string) (radius nBits : Z)
         (s t : string) (out : list string),
    ToolkitContract E ->
    2048 < nBits ->
    In s smiles_list ->
    MolFromSmiles E s = None ->
    In t smiles_list ->
    parses E t = true ->
    exists df out',
      get_secfp E smiles_list radius nBits out = (Return df, out')
      /\ length (rows df) = 0%nat
      /\ (0 < length (filter (parses E) smiles_list))%nat.
Proof.
  intros E l radius nBits s t out HC Hn Hs Hfail Ht Hparse.
  rewrite (secfp_wide_table E l radius nBits s out HC Hn Hs Hfail).
  eexists. eexists. split; [reflexivity|]. split; [reflexivity|].
  assert (Hin : In t (filter (parses E) l)) by (apply filter_In; auto).
  destruct (filter (parses E) l); [contradiction | simpl; lia].
Qed.

Lemma get_secfp_loses_parsed_rows_witness :
  2048 < 4096
  /\ In "XXXX" ["CCCC"; "XXXX"]
  /\ MolFromSmiles Mock.engine "XXXX" = None
  /\ In "CCCC" ["CCCC"; "XXXX"]
  /\ parses Mock.engine "CCCC" = true
  /\ exists df out',
      get_secfp Mock.engine ["CCCC"; "XXXX"] 3 4096 [] = (Return df, out')
      /\ length (rows df) = 0%nat
      /\ (0 < length (filter (parses Mock.engine) ["CCCC"; "XXXX"]))%nat.
Proof.
  assert (Hn : 2048 < 4096) by lia.
  assert (Hs : In "XXXX" ["CCCC"; "XXXX"]) by (simpl; auto).
  assert (Hfail : MolFromSmiles Mock.engine "XXXX" = None) by reflexivity.
  assert (Ht : In "CCCC" ["CCCC"; "XXXX"]) by (simpl; auto).
  assert (Hp : parses Mock.engine "CCCC" = true) by reflexivity.
  repeat (split; [assumption|]).
  exact (get_secfp_loses_parsed_rows Mock.engine ["CCCC"; "XXXX"] 3 4096
           "XXXX" "CCCC" [] MockFacts.contract Hn Hs Hfail Ht Hp).
Defined.

(** ** Further properties of the encoders *)

(** X1. With a toolkit that keeps its contract, [get_maccs] returns, for
    every input, one row per string that parsed, in input order; each row
    has 167 entries, every one 0 or 1: the integers when every string of
    the input parsed, the floats when one failed. *)
Theorem get_maccs_table :
  forall (E : ChemEngine) (smiles_list out : list string),
    ToolkitContract E ->
    exists df out',
      get_maccs E smiles_list out = (Return df, out')
      /\ map fst (rows df) = filter (parses E) smiles_list
      /\ Forall (fun kr =>
                   length (snd kr) = 167%nat
                   /\ Forall (fun x =>
                                if has_failure E smiles_list
                                then x = PyFloat 0 \/ x = PyFloat 1
                                else x = PyInt 0 \/ x = PyInt 1)
                             (snd kr))
                (rows df).
Proof.
  intros E l out HC.
  destruct (invoke_returns E Maccs l out) as [df [out' Hrun]].
  exists df, out'. split; [exact Hrun|].
  assert (Hw : 0 < width_of Maccs) by (cbn; lia).
  rewrite (returned_rows_spec E Maccs l out out' df HC Hw I Hrun).
  split.
  - rewrite map_map. cbn [fst]. apply map_id.
  - apply Forall_forall. intros [k r] Hin.
    apply in_map_iff in Hin as [s [Heq Hs]]. inversion Heq; subst k r.
    apply filter_In in Hs as [_ Hs].
    destruct (row_of_parsed E Maccs s Hs) as [mol [_ ->]].
    cbn [snd descriptor]. split.
    + rewrite stored_length. unfold list_of_bits. rewrite length_map.
      apply (maccs_keys_length E HC).
    + unfold stored, list_of_bits.
      destruct (has_failure E l); rewrite ?map_map; apply Forall_map;
        apply Forall_forall; intros [] _; cbn; auto.
Qed.

Lemma get_maccs_table_witness :
  exists df out',
    get_maccs Mock.engine ["CCCC"; "XXXX"; "CO"] [] = (Return df, out')
    /\ map fst (rows df) = filter (parses Mock.engine) ["CCCC"; "XXXX"; "CO"]
    /\ Forall (fun kr =>
                 length (snd kr) = 167%nat
                 /\ Forall (fun x =>
                              if has_failure Mock.engine ["CCCC"; "XXXX"; "CO"]
                              then x = PyFloat 0 \/ x = PyFloat 1
                              else x = PyInt 0 \/ x = PyInt 1)
                           (snd kr))
              (rows df).
Proof.
  exact (get_maccs_table Mock.engine ["CCCC"; "XXXX"; "CO"] []
           MockFacts.contract).
Defined.

(** X2. With a toolkit that keeps its contract and a positive [nBits],
    every row [get_ecfp] and [get_ecfc] return has exactly [nBits] entries,
    and for a non-empty input the table has [nBits] columns, also when no
    string parsed. *)
Theorem morgan_rows_have_nBits_entries :
  forall (E : ChemEngine) (smiles_list : list string) (radius nBits : Z)
         (useCounts : bool) (out : list string),
    ToolkitContract E ->
    0 < nBits ->
    (exists df out',
        get_ecfp E smiles_list radius nBits useCounts out = (Return df, out')
        /\ Forall (fun kr => length (snd kr) = Z.to_nat nBits) (rows df)
        /\ (smiles_list <> [] -> columns df = Z.to_nat nBits))
    /\ (exists df out',
           get_ecfc E smiles_list radius nBits useCounts out = (Return df, out')
           /\ Forall (fun kr => length (snd kr) = Z.to_nat nBits) (rows df)
           /\ (smiles_list <> [] -> columns df = Z.to_nat nBits)).
Proof.
  intros E l radius nBits u out HC Hn.
  assert (Hgen : forall c,
             width_of c = nBits -> descriptor_width c = Z.to_nat nBits ->
             positive_morgan_width c -> within_secfp_length c ->
             exists df out',
               invoke E c l out = (Return df, out')
               /\ Forall (fun kr => length (snd kr) = Z.to_nat nBits) (rows df)
               /\ (l <> [] -> columns df = Z.to_nat nBits)).
  { intros c Hwc Hdc Hpos Hfit.
    assert (Hw : 0 < width_of c) by lia.
    assert (Hrow : forall s, length (row_of E c s) = Z.to_nat nBits).
    { intros s. unfold row_of. destruct (MolFromSmiles E s) as [mol|].
      - now rewrite descriptor_length.
      - unfold none_times. now rewrite repeat_length, Hwc. }
    destruct (invoke_returns E c l out) as [df [out' Hrun]].
    exists df, out'. split; [exact Hrun|]. split.
    - rewrite (returned_rows_spec E c l out out' df HC Hw Hfit Hrun).
      apply Forall_forall. intros [k r] Hin.
      apply in_map_iff in Hin as [s [Heq _]]. inversion Heq; subst k r.
      cbn [snd]. rewrite stored_length. apply Hrow.
    - intros Hne. rewrite invoke_spec in Hrun.
      assert (Hcol : columns (assembled E c l) = Z.to_nat nBits).
      { cbn [assembled frame_of columns]. apply max_width_const.
        - destruct l; [contradiction | discriminate].
        - intros r Hr. apply in_map_iff in Hr as [s [<- _]]. apply Hrow. }
      destruct (erroneous E l); inversion Hrun; subst df; exact Hcol. }
  split.
  - apply (Hgen (Ecfp radius nBits u)); cbn; auto.
  - apply (Hgen (Ecfc radius nBits u)); cbn; auto.
Qed.

Lemma morgan_rows_have_nBits_entries_witness :
  0 < 8
  /\ (exists df out',
         get_ecfp Mock.engine ["XXXX"; "CCCC"] 2 8 true [] = (Return df, out')
         /\ Forall (fun kr => length (snd kr) = Z.to_nat 8) (rows df)
         /\ (["XXXX"; "CCCC"] <> [] -> columns df = Z.to_nat 8))
  /\ (exists df out',
         get_ecfc Mock.engine ["XXXX"; "CCCC"] 2 8 true [] = (Return df, out')
         /\ Forall (fun kr => length (snd kr) = Z.to_nat 8) (rows df)
         /\ (["XXXX"; "CCCC"] <> [] -> columns df = Z.to_nat 8)).
Proof.
  assert (H : 0 < 8) by lia.
  split; [exact H|].
  exact (morgan_rows_have_nBits_entries Mock.engine ["XXXX"; "CCCC"] 2 8 true []
           MockFacts.contract H).
Defined.

(** X3. When the toolkit's vectors have one length, the vector an encoder
    returns under a key is the descriptor of the molecule parsed from the
    key, with its hydrogens added, as the table stores it: entry for
    entry, with the integers as floats when a string of the input failed
    to parse, and nothing appended or taken away. *)
Theorem returned_vector_is_descriptor :
  forall (E : ChemEngine) (c : call) (smiles_list out : list string),
    fixed_length E c ->
    constructor_accepts c ->
    exists df out',
      invoke E c smiles_list out = (Return df, out')
      /\ Forall (fun kr =>
                   In (fst kr) smiles_list
                   /\ forall mol, MolFromSmiles E (fst kr) = Some mol ->
                                  snd kr
                                  = stored E smiles_list
                                           (descriptor E c (AddHs E mol)))
                (rows df).
Proof.
  intros E c l out Hfix _.
  destruct (invoke_returns E c l out) as [df [out' Hrun]].
  exists df, out'. split; [exact Hrun|].
  apply Forall_forall. intros [k r] Hin. cbn [fst snd].
  destruct (returned_row E c l out out' df k r Hfix Hrun Hin) as [Hk ->].
  split; [exact Hk|]. intros mol Hmol. unfold row_of. now rewrite Hmol.
Qed.

Lemma returned_vector_is_descriptor_witness :
  fixed_length Mock.engine Maccs
  /\ constructor_accepts Maccs
  /\ exists df out',
      invoke Mock.engine Maccs ["CO"; "XXXX"] [] = (Return df, out')
      /\ Forall (fun kr =>
                   In (fst kr) ["CO"; "XXXX"]
                   /\ forall mol, MolFromSmiles Mock.engine (fst kr) = Some mol ->
                                  snd kr
                                  = stored Mock.engine ["CO"; "XXXX"]
                                           (descriptor Mock.engine Maccs
                                                       (AddHs Mock.engine mol)))
                (rows df).
Proof.
  assert (Hfix : fixed_length Mock.engine Maccs).
  { apply (contract_fixed_length Mock.engine MockFacts.contract). exact I. }
  assert (Hacc : constructor_accepts Maccs) by exact I.
  repeat (split; [assumption|]).
  exact (returned_vector_is_descriptor Mock.engine Maccs ["CO"; "XXXX"] []
           Hfix Hacc).
Defined.

(** X4. At the end of the loop of every encoder there is one row per input
    string, and the list of erroneous strings holds the strings that failed
    to parse, in input order and as often as they occur in the input. *)
Theorem loop_accumulators :
  forall (E : ChemEngine) (c : call) (smiles_list : list string),
    length (fst (loop_of E c smiles_list)) = length smiles_list
    /\ snd (loop_of E c smiles_list)
       = filter (fun s => negb (parses E s)) smiles_list
    /\ forall s,
        count_occ string_dec (snd (loop_of E c smiles_list)) s
        = if parses E s then 0%nat else count_occ string_dec smiles_list s.
Proof.
  intros E c l. rewrite loop_of_spec. cbn [fst snd].
  split; [apply length_map|]. split; [reflexivity|].
  intros s. unfold erroneous. destruct (parses E s) eqn:Hs.
  - apply count_occ_filter_out. now rewrite Hs.
  - apply count_occ_filter. now rewrite Hs.
Qed.

(** X5. With a toolkit that keeps its contract, [nBits] above 2048 and an
    input with a string that fails to parse, [get_secfp] returns a table
    without rows: the rows of the strings that parsed, 2048 entries long,
    are filled up to [nBits] columns with missing values and filtered out
    with the placeholders. *)
Theorem get_secfp_wide_placeholder_drops_every_row :
  forall (E : ChemEngine) (smiles_list : list string) (radius nBits : Z)
         (s : string) (out : list string),
    ToolkitContract E ->
    2048 < nBits ->
    In s smiles_list ->
    MolFromSmiles E s = None ->
    get_secfp E smiles_list radius nBits out
    = (Return {| columns := Z.to_nat nBits; rows := [] |},
       out ++ [diagnostic (erroneous E smiles_list)]).
Proof.
  intros E l radius nBits s out HC Hn Hs Hfail.
  exact (secfp_wide_table E l radius nBits s out HC Hn Hs Hfail).
Qed.

Lemma get_secfp_wide_placeholder_drops_every_row_witness :
  2048 < 4096
  /\ In "XXXX" ["CCCC"; "XXXX"; "CO"]
  /\ MolFromSmiles Mock.engine "XXXX" = None
  /\ get_secfp Mock.engine ["CCCC"; "XXXX"; "CO"] 3 4096 []
     = (Return {| columns := Z.to_nat 4096; rows := [] |},
        [] ++ [diagnostic (erroneous Mock.engine ["CCCC"; "XXXX"; "CO"])]).
Proof.
  assert (Hn : 2048 < 4096) by lia.
  assert (Hin : In "XXXX" ["CCCC"; "XXXX"; "CO"]) by (simpl; auto).
  assert (Hfail : MolFromSmiles Mock.engine "XXXX" = None) by reflexivity.
  repeat (split; [assumption|]).
  exact (get_secfp_wide_placeholder_drops_every_row Mock.engine
           ["CCCC"; "XXXX"; "CO"] 3 4096 "XXXX" [] MockFacts.contract
           Hn Hin Hfail).
Defined.

Lemma as_float_idempotent (x : cell) : as_float (as_float x) = as_float x.
Proof. destruct x; reflexivity. Qed.

Lemma as_floats_stored (E : ChemEngine) (l : list string)
      (f : string -> list cell) (keys : list string) :
  as_floats (map (fun s => (s, stored E l (f s))) keys)
  = map (fun s => (s, map as_float (f s))) keys.
Proof.
  unfold as_floats. rewrite map_map. apply map_ext. intros s. cbn [fst snd].
  f_equal. unfold stored. destruct (has_failure E l); [|reflexivity].
  rewrite map_map. apply map_ext. intros x. apply as_float_idempotent.
Qed.

(** X6. With a toolkit that keeps its contract and a placeholder of positive
    length that fits, encoding a list in two batches gives the rows of
    encoding it at once, up to the dtype: read as floats, the rows for
    [l1 ++ l2] are the rows for [l1] followed by the rows for [l2]; and
    they are the same cell for cell when both batches have a string that
    fails to parse or neither has. *)
Theorem batches_concatenate :
  forall (E : ChemEngine) (c : call) (l1 l2 out : list string),
    ToolkitContract E ->
    0 < width_of c ->
    within_secfp_length c ->
    exists df1 df2 df out1 out2 out',
      invoke E c l1 out = (Return df1, out1)
      /\ invoke E c l2 out = (Return df2, out2)
      /\ invoke E c (l1 ++ l2) out = (Return df, out')
      /\ as_floats (rows df) = as_floats (rows df1 ++ rows df2)
      /\ (has_failure E l1 = has_failure E l2 ->
          rows df = rows df1 ++ rows df2).
Proof.
  intros E c l1 l2 out HC Hw Hfit.
  destruct (invoke_returns E c l1 out) as [df1 [o1 H1]].
  destruct (invoke_returns E c l2 out) as [df2 [o2 H2]].
  destruct (invoke_returns E c (l1 ++ l2) out) as [df [o H]].
  exists df1, df2, df, o1, o2, o. repeat split; try assumption.
  - rewrite (returned_rows_spec E c _ _ _ _ HC Hw Hfit H1),
            (returned_rows_spec E c _ _ _ _ HC Hw Hfit H2),
            (returned_rows_spec E c _ _ _ _ HC Hw Hfit H).
    unfold as_floats at 2. rewrite map_app.
    change (map (fun kr : string * list cell =>
                   (fst kr, map as_float (snd kr))))
      with as_floats.
    rewrite !as_floats_stored. now rewrite filter_app, map_app.
  - intros Hsame.
    rewrite (returned_rows_spec E c _ _ _ _ HC Hw Hfit H1),
            (returned_rows_spec E c _ _ _ _ HC Hw Hfit H2),
            (returned_rows_spec E c _ _ _ _ HC Hw Hfit H).
    assert (Hboth : has_failure E (l1 ++ l2) = has_failure E l1).
    { unfold has_failure in *. rewrite existsb_app, <- Hsame.
      apply orb_diag. }
    unfold stored. rewrite Hboth, <- Hsame.
    now rewrite filter_app, map_app.
Qed.

Lemma batches_concatenate_witness :
  0 < width_of (Ecfp 2 8 true)
  /\ within_secfp_length (Ecfp 2 8 true)
  /\ exists df1 df2 df out1 out2 out',
      invoke Mock.engine (Ecfp 2 8 true) ["CCCC"; "XXXX"] [] = (Return df1, out1)
      /\ invoke Mock.engine (Ecfp 2 8 true) ["CO"] [] = (Return df2, out2)
      /\ invoke Mock.engine (Ecfp 2 8 true) (["CCCC"; "XXXX"] ++ ["CO"]) []
         = (Return df, out')
      /\ as_floats (rows df) = as_floats (rows df1 ++ rows df2)
      /\ (has_failure Mock.engine ["CCCC"; "XXXX"] = has_failure Mock.engine ["CO"] ->
          rows df = rows df1 ++ rows df2).
Proof.
  assert (Hw : 0 < width_of (Ecfp 2 8 true)) by (cbn; lia).
  assert (Hfit : within_secfp_length (Ecfp 2 8 true)) by exact I.
  repeat (split; [assumption|]).
  exact (batches_concatenate Mock.engine (Ecfp 2 8 true) ["CCCC"; "XXXX"] ["CO"]
           [] MockFacts.contract Hw Hfit).
Defined.



(** X8. With a toolkit that keeps its contract and [nBits] not negative,
    for every input no row [get_secfp] returns holds a missing value, and
    every row returned under a string that parses has 2048 entries, each
    a number that is not negative: an integer when every string of the
    input parsed, a float when one failed. *)
Theorem get_secfp_entries :
  forall (E : ChemEngine) (smiles_list : list string) (radius nBits : Z)
         (out : list string),
    ToolkitContract E ->
    0 <= nBits ->
    exists df out',
      get_secfp E smiles_list radius nBits out = (Return df, out')
      /\ Forall (fun kr =>
                   ~ In PyNone (snd kr)
                   /\ (parses E (fst kr) = true ->
                       length (snd kr) = 2048%nat
                       /\ Forall (number_cell (has_failure E smiles_list))
                                 (snd kr)))
                (rows df).
Proof.
  intros E l radius nBits out HC _.
  pose (c := Secfp radius nBits).
  destruct (invoke_returns E c l out) as [df [out' Hrun]].
  exists df, out'. split; [exact Hrun|].
  assert (Hfix : fixed_length E c)
    by (apply contract_fixed_length; [exact HC | exact I]).
  apply Forall_forall. intros [k r] Hin. cbn [fst snd].
  destruct (returned_row E c l out out' df k r Hfix Hrun Hin) as [_ Hr].
  assert (Hparsed : parses E k = true ->
            ~ In PyNone r
            /\ length r = 2048%nat
            /\ Forall (number_cell (has_failure E l)) r).
  { intros Hk. destruct (row_of_parsed E c k Hk) as [mol [_ Hrow]].
    rewrite Hr, Hrow. split; [|split].
    - apply existsb_null_In. rewrite stored_null. apply descriptor_null_free.
    - rewrite stored_length.
      now rewrite descriptor_length by (exact HC || exact I).
    - subst c. cbn [descriptor]. apply stored_numbers, uint_entries. }
  destruct (returned_row_parsed_or_null_free E c l out out' df k r Hrun Hin)
    as [Hk | Hnn].
  - destruct (Hparsed Hk) as [Hn Hrest]. split; [exact Hn | now intros _].
  - split; [now apply existsb_null_In|].
    intros Hk. now destruct (Hparsed Hk).
Qed.

Lemma get_secfp_entries_witness :
  0 <= 16
  /\ exists df out',
      get_secfp Mock.engine ["CCCC"; "XXXX"] 3 16 [] = (Return df, out')
      /\ Forall (fun kr =>
                   ~ In PyNone (snd kr)
                   /\ (parses Mock.engine (fst kr) = true ->
                       length (snd kr) = 2048%nat
                       /\ Forall (number_cell
                                    (has_failure Mock.engine ["CCCC"; "XXXX"]))
                                 (snd kr)))
                (rows df).
Proof.
  assert (H : 0 <= 16) by lia.
  split; [exact H|].
  exact (get_secfp_entries Mock.engine ["CCCC"; "XXXX"] 3 16 []
           MockFacts.contract H).
Defined.

(** X9. The simple test of the script.  With a toolkit that keeps its
    contract, parses the first four test strings and rejects ["XXXX"], the
    four calls return normally, each prints the diagnostic for ["XXXX"]
    (four lines in all, in the order of the calls), and each table has the
    first four strings as keys, in order, with rows of 2048, 2048, 167 and
    2048 entries. *)
Theorem simple_test_tables :
  forall (E : ChemEngine) (out : list string),
    ToolkitContract E ->
    Forall (fun s => parses E s = true)
           ["CCCC"; "CO"; "ON(c1ccccc1)C(=O)c2ccc(Cl)cc2Cl";
            "CN1C=NC2=C1C(=O)N(C(=O)N2C)C"] ->
    MolFromSmiles E "XXXX" = None ->
    let shape (df : DataFrame) (w : nat) :=
      map fst (rows df)
      = ["CCCC"; "CO"; "ON(c1ccccc1)C(=O)c2ccc(Cl)cc2Cl";
         "CN1C=NC2=C1C(=O)N(C(=O)N2C)C"]
      /\ Forall (fun kr => length (snd kr) = w) (rows df) in
    exists res,
      simple_test E out
      = (Return res,
         out ++ [diagnostic ["XXXX"]; diagnostic ["XXXX"];
                 diagnostic ["XXXX"]; diagnostic ["XXXX"]])
      /\ shape (simple_ecfp_result res) 2048%nat
      /\ shape (simple_ecfp_count_result res) 2048%nat
      /\ shape (simple_maccs_result res) 167%nat
      /\ shape (simple_secfp_result res) 2048%nat.
Proof.
  intros E out HC Hvalid Hbad shape.
  assert (Hx : parses E "XXXX" = false) by (unfold parses; now rewrite Hbad).
  inversion Hvalid as [|s1 t1 H1 Hv1]; subst.
  inversion Hv1 as [|s2 t2 H2 Hv2]; subst.
  inversion Hv2 as [|s3 t3 H3 Hv3]; subst.
  inversion Hv3 as [|s4 t4 H4 _]; subst.
  assert (Herr : erroneous E test_smiles_list = ["XXXX"]).
  { unfold erroneous, test_smiles_list. cbn [filter].
    now rewrite H1, H2, H3, H4, Hx. }
  assert (Hok : filter (parses E) test_smiles_list
                = ["CCCC"; "CO"; "ON(c1ccccc1)C(=O)c2ccc(Cl)cc2Cl";
                   "CN1C=NC2=C1C(=O)N(C(=O)N2C)C"]).
  { unfold test_smiles_list. cbn [filter].
    now rewrite H1, H2, H3, H4, Hx. }
  assert (Hcall : forall c o,
             0 < width_of c -> within_secfp_length c ->
             positive_morgan_width c ->
             invoke E c test_smiles_list o
             = (Return (dropna_any (assembled E c test_smiles_list)),
                o ++ [diagnostic ["XXXX"]])
             /\ shape (dropna_any (assembled E c test_smiles_list))
                      (descriptor_width c)).
  { intros c o Hw Hfit Hpos.
    assert (Hrun : invoke E c test_smiles_list o
                   = (Return (dropna_any (assembled E c test_smiles_list)),
                      o ++ [diagnostic ["XXXX"]]))
      by (rewrite invoke_spec, Herr; reflexivity).
    split; [exact Hrun|].
    unfold shape.
    rewrite (returned_rows_spec E c _ _ _ _ HC Hw Hfit Hrun), Hok.
    split.
    - rewrite map_map. cbn [fst]. apply map_id.
    - apply Forall_forall. intros [k r] Hin.
      apply in_map_iff in Hin as [s [Heq Hs]]. inversion Heq; subst k r.
      assert (Hp : parses E s = true).
      { rewrite Forall_forall in Hvalid. now apply Hvalid. }
      cbn [snd]. rewrite stored_length.
      destruct (row_of_parsed E c s Hp) as [mol [_ ->]].
      now apply descriptor_length. }
  destruct (Hcall (Ecfp 2 2048 false) out) as [R1 S1]; try (cbn; lia).
  destruct (Hcall (Ecfp 2 2048 true) (out ++ [diagnostic ["XXXX"]]))
    as [R2 S2]; try (cbn; lia).
  destruct (Hcall Maccs ((out ++ [diagnostic ["XXXX"]]) ++ [diagnostic ["XXXX"]]))
    as [R3 S3]; try (cbn; lia || exact I).
  destruct (Hcall (Secfp 3 2048)
              (((out ++ [diagnostic ["XXXX"]]) ++ [diagnostic ["XXXX"]])
                 ++ [diagnostic ["XXXX"]]))
    as [R4 S4]; try (cbn; lia || exact I).
  cbn [invoke] in R1, R2, R3, R4.
  eexists. split.
  - unfold simple_test, call_get_ecfp, call_get_secfp, bind. cbn [default].
    rewrite R1, R2, R3, R4. unfold ret.
    rewrite <- !app_assoc. reflexivity.
  - cbn [simple_ecfp_result simple_ecfp_count_result simple_maccs_result
           simple_secfp_result].
    repeat split; first [apply S1 | apply S2 | apply S3 | apply S4].
Qed.

Lemma simple_test_tables_witness :
  Forall (fun s => parses Mock.engine s = true)
         ["CCCC"; "CO"; "ON(c1ccccc1)C(=O)c2ccc(Cl)cc2Cl";
          "CN1C=NC2=C1C(=O)N(C(=O)N2C)C"]
  /\ MolFromSmiles Mock.engine "XXXX" = None
  /\ let shape (df : DataFrame) (w : nat) :=
       map fst (rows df)
       = ["CCCC"; "CO"; "ON(c1ccccc1)C(=O)c2ccc(Cl)cc2Cl";
          "CN1C=NC2=C1C(=O)N(C(=O)N2C)C"]
       /\ Forall (fun kr => length (snd kr) = w) (rows df) in
     exists res,
       simple_test Mock.engine []
       = (Return res,
          [] ++ [diagnostic ["XXXX"]; diagnostic ["XXXX"];
                 diagnostic ["XXXX"]; diagnostic ["XXXX"]])
       /\ shape (simple_ecfp_result res) 2048%nat
       /\ shape (simple_ecfp_count_result res) 2048%nat
       /\ shape (simple_maccs_result res) 167%nat
       /\ shape (simple_secfp_result res) 2048%nat.
Proof.
  assert (Hvalid : Forall (fun s => parses Mock.engine s = true)
                          ["CCCC"; "CO"; "ON(c1ccccc1)C(=O)c2ccc(Cl)cc2Cl";
                           "CN1C=NC2=C1C(=O)N(C(=O)N2C)C"])
    by (repeat constructor).
  assert (Hbad : MolFromSmiles Mock.engine "XXXX" = None) by reflexivity.
  split; [exact Hvalid|]. split; [exact Hbad|].
  exact (simple_test_tables Mock.engine [] MockFacts.contract Hvalid Hbad).
Defined.

(** X10. The keys of the returned table are the input strings that parsed,
    in order and with their repetitions, so a string that parses and occurs
    k times in the input is the key of k rows: when every string parses,
    and also, with a toolkit that keeps its contract, whenever the
    placeholder has a positive length and, for SECFP, [nBits] is at most
    2048. *)
Theorem one_row_per_parsed_input :
  forall (E : ChemEngine) (c : call) (smiles_list out : list string),
    constructor_accepts c ->
    Forall (fun s => parses E s = true) smiles_list
    \/ (ToolkitContract E /\ 0 < width_of c /\ within_secfp_length c) ->
    exists df out',
      invoke E c smiles_list out = (Return df, out')
      /\ map fst (rows df) = filter (parses E) smiles_list
      /\ length (rows df) = length (filter (parses E) smiles_list)
      /\ forall s, parses E s = true ->
           count_occ string_dec (map fst (rows df)) s
           = count_occ string_dec smiles_list s.
Proof.
  intros E c l out _ Hcase.
  assert (Hrun : exists df out',
             invoke E c l out = (Return df, out')
             /\ map fst (rows df) = filter (parses E) l).
  { destruct Hcase as [Hall | [HC [Hw Hfit]]].
    - destruct (invoke_all_parse E c l out Hall) as [Hrun Hkeys].
      exists (assembled E c l), out. split; [exact Hrun|].
      now rewrite (filter_all _ _ Hall).
    - destruct (invoke_returns E c l out) as [df [out' Hrun]].
      exists df, out'. split; [exact Hrun|].
      rewrite (returned_rows_spec E c l out out' df HC Hw Hfit Hrun).
      rewrite map_map. cbn [fst]. apply map_id. }
  destruct Hrun as [df [out' [Hrun Hkeys]]].
  exists df, out'. repeat split; [exact Hrun | exact Hkeys | |].
  - now rewrite <- Hkeys, length_map.
  - intros s Hs. rewrite Hkeys. now apply count_occ_filter.
Qed.

Lemma one_row_per_parsed_input_witness :
  constructor_accepts (Secfp 3 1024)
  /\ (ToolkitContract Mock.engine
      /\ 0 < width_of (Secfp 3 1024) /\ within_secfp_length (Secfp 3 1024))
  /\ exists df out',
      invoke Mock.engine (Secfp 3 1024) ["CCCC"; "XXXX"; "CCCC"] []
      = (Return df, out')
      /\ map fst (rows df)
         = filter (parses Mock.engine) ["CCCC"; "XXXX"; "CCCC"]
      /\ length (rows df)
         = length (filter (parses Mock.engine) ["CCCC"; "XXXX"; "CCCC"])
      /\ forall s, parses Mock.engine s = true ->
           count_occ string_dec (map fst (rows df)) s
           = count_occ string_dec ["CCCC"; "XXXX"; "CCCC"] s.
Proof.
  assert (Hacc : constructor_accepts (Secfp 3 1024)) by (cbn; lia).
  assert (Hw : 0 < width_of (Secfp 3 1024)) by (cbn; lia).
  assert (Hfit : within_secfp_length (Secfp 3 1024)) by (cbn; lia).
  assert (Hcase : ToolkitContract Mock.engine
                  /\ 0 < width_of (Secfp 3 1024)
                  /\ within_secfp_length (Secfp 3 1024))
    by exact (conj MockFacts.contract (conj Hw Hfit)).
  split; [exact Hacc|]. split; [exact Hcase|].
  exact (one_row_per_parsed_input Mock.engine (Secfp 3 1024)
           ["CCCC"; "XXXX"; "CCCC"] [] Hacc (or_intror Hcase)).
Defined.
